(** * Largest sub-square with an all-ones perimeter

    A shallow embedding of the notebook [sub_square_implementation.ipynb]:
    the [Square] dataclass with its validation, the sliding-window generator
    [_get_rolling_windows], the perimeter test [_is_sub_square], the search
    [find_largest_sub_square] and the generator of test grids
    [generate_square_with_one_valid_sub_square], followed by the properties
    the specification states about them and by further properties of the
    code.

    Conventions of the embedding.
    - A NumPy array is its shape together with its scalars in row-major
      (C) order; only integer arrays are modelled.
    - Python integers are [Z]; lengths and positions inside an array are [nat].
    - A Python exception is identified by its class, the message is left out
      (the not-found error keeps the matrix its message is formatted from).
    - A generator is the finite trace of what it yields, ended by a normal
      stop or by the exception its body raises.
    - The functions of the notebook are first given on array values; the
      module [Mem] gives them again on views of buffers held in a store, and
      the two are proved to agree.

    The definitions come first, the proofs after them. *)

From Stdlib Require Import ZArith Lia.
From stdpp Require Import base decidable numbers option list.

Local Open Scope Z_scope.

(** ** Arrays, exceptions and results *)

Record ndarray : Type := NDArray { shape : list nat; data : list Z }.

Inductive exn : Type :=
| TypeError
| ValueError
| IndexError
| SubSquareDNEError (m : ndarray).

Inductive result (A : Type) : Type :=
| Ok (a : A)
| Raise (e : exn).
Arguments Ok {A} a.
Arguments Raise {A} e.

Definition bind {A B : Type} (m : result A) (k : A -> result B) : result B :=
  match m with
  | Ok a => k a
  | Raise e => Raise e
  end.

Notation "x <- m ;; k" := (bind m (fun x => k))
  (at level 100, m at next level, right associativity).

(** ** The fragment of NumPy the program uses *)

Definition ndim (a : ndarray) : nat := length (shape a).

Definition product (l : list nat) : nat := foldr Nat.mul 1%nat l.

(** Every array NumPy builds holds as many scalars as its shape says. *)
Definition wf_ndarray (a : ndarray) : Prop :=
  length (data a) = product (shape a).

(** An integer index [i] on an axis of length [d]: negative indices count
    from the end, anything outside [-d, d) is an [IndexError]. *)
Definition py_index (i : Z) (d : nat) : result nat :=
  if bool_decide (- Z.of_nat d <= i < Z.of_nat d)
  then Ok (Z.to_nat (if i <? 0 then i + Z.of_nat d else i))
  else Raise IndexError.

(** One bound of a slice on an axis of length [d]: a negative bound counts
    from the end, and the result is clipped into [0, d]. *)
Definition clip_bound (i : Z) (d : nat) : nat :=
  Z.to_nat (Z.min (Z.max (if i <? 0 then i + Z.of_nat d else i) 0) (Z.of_nat d)).

(** The slice [start:stop] on an axis of length [d], as its first position
    and its number of positions. Slices never raise. *)
Definition py_slice (start stop : Z) (d : nat) : nat * nat :=
  let lo := clip_bound start d in
  let hi := clip_bound stop d in
  (lo, (hi - lo)%nat).

(** The number of scalars below one position [a[i, j]] of the two leading
    axes: 1 for a matrix. *)
Definition cellsz (a : ndarray) : nat := product (drop 2 (shape a)).

(** The scalars of [a[i, c0 : c0 + w]], which are contiguous in storage;
    [cols] is the length of axis 1. *)
Definition row_segment (a : ndarray) (cols i c0 w : nat) : list Z :=
  take (w * cellsz a) (drop ((i * cols + c0) * cellsz a) (data a)).

(** The array made of the segments [a[i, c : c + w]] for [i] in [r, r + h),
    with the given shape. *)
Definition segments (a : ndarray) (cols r h c w : nat) (sh : list nat) : ndarray :=
  NDArray sh (mjoin ((fun i => row_segment a cols i c w) <$> seq r h)).

(** [a[r0:r1, c0:c1]] *)
Definition getitem_slice_slice (a : ndarray) (r0 r1 c0 c1 : Z) : result ndarray :=
  match shape a with
  | rows :: cols :: rest =>
      let '(r, h) := py_slice r0 r1 rows in
      let '(c, w) := py_slice c0 c1 cols in
      Ok (segments a cols r h c w (h :: w :: rest))
  | _ => Raise IndexError
  end.

(** [a[i, :]] *)
Definition getitem_int_all (a : ndarray) (i : Z) : result ndarray :=
  match shape a with
  | rows :: cols :: rest =>
      i' <- py_index i rows ;;
      Ok (segments a cols i' 1 0 cols (cols :: rest))
  | _ => Raise IndexError
  end.

(** [a[r0:r1, j]] *)
Definition getitem_slice_int (a : ndarray) (r0 r1 j : Z) : result ndarray :=
  match shape a with
  | rows :: cols :: rest =>
      j' <- py_index j cols ;;
      let '(r, h) := py_slice r0 r1 rows in
      Ok (segments a cols r h j' 1 (h :: rest))
  | _ => Raise IndexError
  end.

(** [np.concatenate(arrays)] along axis 0: the arrays must have at least one
    axis and agree on the others. *)
Definition np_concatenate (arrays : list ndarray) : result ndarray :=
  match arrays with
  | [] => Raise ValueError
  | a0 :: _ =>
      if forallb (fun a => bool_decide ((0 < ndim a)%nat /\
                                        tail (shape a) = tail (shape a0))) arrays
      then Ok (NDArray (sum_list ((fun a => hd 0%nat (shape a)) <$> arrays)
                          :: tail (shape a0))
                       (mjoin (data <$> arrays)))
      else Raise ValueError
  end.

(** [np.all(a == v)] *)
Definition np_all_eq (a : ndarray) (v : Z) : bool :=
  forallb (fun x => x =? v) (data a).

(** [np.all(np.isin(a, values))] *)
Definition np_all_isin (a : ndarray) (values : list Z) : bool :=
  forallb (fun x => existsb (fun v => x =? v) values) (data a).

(** [range(start, stop, step)] for a non-zero step. *)
Definition py_range (start stop step : Z) : list Z :=
  let count :=
    if 0 <? step then (stop - start + step - 1) / step
    else (start - stop - step - 1) / (- step) in
  (fun i => start + i * step) <$> seqZ 0 count.

(** ** Generators and [for] loops *)

Inductive generator (A : Type) : Type :=
| GYield (a : A) (rest : generator A)
| GStop
| GRaise (e : exn).
Arguments GYield {A} a rest.
Arguments GStop {A}.
Arguments GRaise {A} e.

(** Running one generator body after another. *)
Fixpoint gen_seq {A : Type} (g k : generator A) : generator A :=
  match g with
  | GYield a rest => GYield a (gen_seq rest k)
  | GStop => k
  | GRaise e => GRaise e
  end.

(** A [for] loop inside a generator body. *)
Fixpoint gen_for {A B : Type} (l : list A) (body : A -> generator B) : generator B :=
  match l with
  | [] => GStop
  | x :: l' => gen_seq (body x) (gen_for l' body)
  end.

(** [yield e], where evaluating [e] may raise. *)
Definition gen_yield {A : Type} (e : result A) : generator A :=
  match e with
  | Ok a => GYield a GStop
  | Raise err => GRaise err
  end.

(** A [for] loop over a list whose body may [return] ([Some]) or fall
    through to the next iteration ([None]). *)
Fixpoint for_list {A R : Type} (l : list A) (body : A -> result (option R))
  : result (option R) :=
  match l with
  | [] => Ok None
  | x :: l' =>
      r <- body x ;;
      match r with
      | Some v => Ok (Some v)
      | None => for_list l' body
      end
  end.

(** The same loop over a generator; an exception of the generator surfaces
    when the loop reaches it. *)
Fixpoint for_gen {A R : Type} (g : generator A) (body : A -> result (option R))
  : result (option R) :=
  match g with
  | GYield a rest =>
      r <- body a ;;
      match r with
      | Some v => Ok (Some v)
      | None => for_gen rest body
      end
  | GStop => Ok None
  | GRaise e => Raise e
  end.

(** ** The [Square] dataclass *)

Record Square : Type := mkSquare { matrix : ndarray }.

(** The Python values a caller may hand over. *)
#[warnings="-register-all"]
Inductive pyobj : Type :=
| PyNone
| PyInt (z : Z)
| PyList (l : list pyobj)
| PyNdarray (a : ndarray)
| PySquare (s : Square).

(** [Square._valid_matrix], on the value given for the field [matrix]. The
    last case of the inner [match] is the failure of the tuple unpacking
    [rows, cols = shape], itself a [ValueError]. *)
Definition _valid_matrix (m : pyobj) : result unit :=
  match m with
  | PyNdarray a =>
      if negb (ndim a =? 2)%nat then Raise ValueError else
      match shape a with
      | [rows; cols] =>
          if negb (rows =? cols)%nat then Raise ValueError else
          if negb (np_all_isin a [0; 1]) then Raise ValueError else
          Ok tt
      | _ => Raise ValueError
      end
  | _ => Raise TypeError
  end.

(** [Square(matrix=m)]: the frozen dataclass stores the field and runs
    [__post_init__], which validates it. *)
Definition Square_new (m : pyobj) : result Square :=
  _ <- _valid_matrix m ;;
  match m with
  | PyNdarray a => Ok (mkSquare a)
  | _ => Raise TypeError
  end.

(** The property [Square.size]: [matrix.shape[0]]. *)
Definition size (square : Square) : result Z :=
  match shape (matrix square) with
  | n :: _ => Ok (Z.of_nat n)
  | [] => Raise IndexError
  end.

(** ** [SlidingWindowSearch] *)

Definition _get_rolling_windows (square : Square) (sub_square_size : Z)
  : generator ndarray :=
  match size square with
  | Raise e => GRaise e
  | Ok n =>
      if (sub_square_size >? n) || (sub_square_size <? 1) then GRaise ValueError
      else
        gen_for (py_range 0 (n - sub_square_size + 1) 1) (fun start_row =>
          gen_for (py_range 0 (n - sub_square_size + 1) 1) (fun start_col =>
            gen_yield (getitem_slice_slice (matrix square)
                         start_row (start_row + sub_square_size)
                         start_col (start_col + sub_square_size))))
  end.

Definition _is_sub_square (sub_square : ndarray) : result bool :=
  top_row <- getitem_int_all sub_square 0 ;;
  bottom_row <- getitem_int_all sub_square (-1) ;;
  left_column <- getitem_slice_int sub_square 1 (-1) 0 ;;
  right_column <- getitem_slice_int sub_square 1 (-1) (-1) ;;
  perimeter <- np_concatenate [top_row; bottom_row; left_column; right_column] ;;
  Ok (np_all_eq perimeter 1).

Definition find_largest_sub_square (square : pyobj) : result (ndarray * Z) :=
  match square with
  | PySquare sq =>
      m <- size sq ;;
      found <- for_list (py_range m 0 (-1)) (fun size =>
                 for_gen (_get_rolling_windows sq size) (fun sub_square =>
                   ok <- _is_sub_square sub_square ;;
                   if (ok : bool) then Ok (Some (sub_square, size)) else Ok None)) ;;
      match found with
      | Some r => Ok r
      | None => Raise (SubSquareDNEError (matrix sq))
      end
  | _ => Raise TypeError
  end.

(** ** Sample inputs *)

Definition grid_example : ndarray :=
  NDArray [3; 3]%nat [0; 1; 1;
                      0; 1; 1;
                      1; 1; 1].

Definition zeros (sh : list nat) : ndarray :=
  NDArray sh (replicate (product sh) 0).

Local Close Scope Z_scope.

(** ** Cells of a matrix

    [item a i j] is the cell [a[i, j]] of a 2-dimensional array, for
    non-negative [i] and [j] inside the array. *)

Definition item (a : ndarray) (i j : nat) : option Z :=
  match shape a with
  | [rows; cols] =>
      if bool_decide (i < rows /\ j < cols) then data a !! (i * cols + j) else None
  | _ => None
  end.

(** The list of what a generator yields when it stops normally. *)
Definition gen_of_list {A : Type} (l : list A) : generator A :=
  foldr GYield GStop l.

(** The sub-square of side [k] anchored at [(row, col)], as the generator
    body extracts it. *)
Definition window (square : Square) (k row col : nat) : result ndarray :=
  getitem_slice_slice (matrix square)
    (Z.of_nat row) (Z.of_nat row + Z.of_nat k)
    (Z.of_nat col) (Z.of_nat col + Z.of_nat k).

(** The placement of side [k] at [(row, col)] passes the perimeter test. *)
Definition qualifies (square : Square) (k row col : nat) : bool :=
  match window square k row col with
  | Ok w => match _is_sub_square w with Ok b => b | Raise _ => false end
  | Raise _ => false
  end.

(** A [Square] of side [n] as the constructor returns it. *)
Definition valid_grid (square : Square) (n : nat) : Prop :=
  wf_ndarray (matrix square) /\
  Square_new (PyNdarray (matrix square)) = Ok square /\
  size square = Ok (Z.of_nat n).

(** The windows of side [k] of a matrix of side [n], in the order of the
    two nested loops. *)
Definition windows_list (a : ndarray) (n k : nat) : list ndarray :=
  mjoin ((fun row => (fun col => segments a n row k col k [k; k])
                       <$> seq 0 (n - k + 1))
           <$> seq 0 (n - k + 1)).

(** ** The search loops *)

(** The body of the inner loop of [find_largest_sub_square], for the
    windows of side [size]. *)
Definition test_window (size : Z) (sub_square : ndarray)
  : result (option (ndarray * Z)) :=
  bind (_is_sub_square sub_square)
       (fun ok : bool => if ok then Ok (Some (sub_square, size)) else Ok None).

(** A window that passes the perimeter test, without raising. *)
Definition passes (w : ndarray) : Prop := _is_sub_square w = Ok true.

#[local] Instance passes_dec (w : ndarray) : Decision (passes w).
Proof.
  unfold passes. destruct (_is_sub_square w) as [[|]|e];
    [by left | by right | by right].
Defined.

(** The first passing window of side [k], with its position in the
    enumeration. *)
Definition scan_size (a : ndarray) (n k : nat) : option (nat * ndarray) :=
  list_find passes (windows_list a n k).

(** The outcome of trying the sides [m], [m - 1], ..., [1] in turn. *)
Fixpoint search_from (a : ndarray) (n m : nat) : option (nat * ndarray) :=
  match m with
  | 0 => None
  | S m' =>
      match scan_size a n (S m') with
      | Some p => Some (S m', p.2)
      | None => search_from a n m'
      end
  end.

(** ** Placements and the scan order *)

(** A placement of side [k] at [(row, col)] inside a grid of side [n]. *)
Definition placement (n k row col : nat) : Prop :=
  1 <= k <= n /\ row + k <= n /\ col + k <= n.

(** The search returns the sub-square of some qualifying placement that no
    placement of a larger side and no placement of the same side at an
    earlier anchor (in row-major order) beats. *)
Definition returns_first_placement (square : Square) (n : nat) : Prop :=
  exists k row col w,
    find_largest_sub_square (PySquare square) = Ok (w, Z.of_nat k) /\
    placement n k row col /\
    window square k row col = Ok w /\
    qualifies square k row col = true /\
    (forall k' row' col', placement n k' row' col' -> k < k' ->
       qualifies square k' row' col' = false) /\
    (forall row' col', placement n k row' col' ->
       row' < row \/ (row' = row /\ col' < col) ->
       qualifies square k row' col' = false).

(** ** Validation of the constructor's argument *)

(** The arrays the constructor rejects for their shape: not 2-dimensional,
    or with a row count different from the column count. *)
Definition bad_shape (a : ndarray) : Prop :=
  ndim a <> 2 \/ exists rows cols, shape a = [rows; cols] /\ rows <> cols.

(** The reading of the specification in which a shape failure has an error
    class of its own, different from [ValueError]. *)
Definition raises_distinct_shape_error (a : ndarray) : Prop :=
  exists e, e <> ValueError /\ Square_new (PyNdarray a) = Raise e.

(** ** Arrays as views of shared buffers

    The value model above takes a fresh array for every slice. NumPy does
    not: a [Square] refers to its array, basic slicing returns views that
    share the buffer of the array they are taken from, and only
    [np.concatenate] and the comparison build new arrays. The module below
    models that sharing: a store gives the scalars of every buffer, a view
    addresses a buffer through an offset and strides, and the operations
    that read cells take the store and return it. *)

Module Mem.

Definition loc : Type := nat.

(** The scalars of every buffer. *)
Definition store : Type := loc -> list Z.

(** An array object: the buffer it reads, the position of its first
    scalar, its shape, and the step in the buffer along each axis. *)
Record view : Type := View {
  base : loc;
  offset : nat;
  vshape : list nat;
  strides : list nat
}.

(** Computations that may read or write the store and may raise. *)
Definition state (A : Type) : Type := store -> result A * store.

Definition ret {A : Type} (a : A) : state A := fun s => (Ok a, s).

Definition raise {A : Type} (e : exn) : state A := fun s => (Raise e, s).

Definition lift {A : Type} (r : result A) : state A := fun s => (r, s).

Definition bind {A B : Type} (m : state A) (k : A -> state B) : state B :=
  fun s =>
    match m s with
    | (Ok a, s') => k a s'
    | (Raise e, s') => (Raise e, s')
    end.

(** The scalars a view shows, in row-major order. *)
Fixpoint elems (buf : list Z) (sh st : list nat) (off : nat) : list Z :=
  match sh with
  | [] => [nth off buf 0%Z]
  | d :: sh' =>
      mjoin ((fun i => elems buf sh' (tail st) (off + i * hd 0 st)) <$> seq 0 d)
  end.

Definition cells (s : store) (a : view) : list Z :=
  elems (s (base a)) (vshape a) (strides a) (offset a).

(** Reading all the scalars of a view. *)
Definition read (a : view) : state (list Z) := fun s => (Ok (cells s a), s).

(** [a[r0:r1, c0:c1]]: a view of the same buffer. *)
Definition getitem_slice_slice (a : view) (r0 r1 c0 c1 : Z) : result view :=
  match vshape a, strides a with
  | rows :: cols :: rest, s0 :: s1 :: srest =>
      let '(r, h) := py_slice r0 r1 rows in
      let '(c, w) := py_slice c0 c1 cols in
      Ok (View (base a) (offset a + r * s0 + c * s1)
               (h :: w :: rest) (s0 :: s1 :: srest))
  | _, _ => Raise IndexError
  end.

(** [a[i, :]]: a view of the same buffer. *)
Definition getitem_int_all (a : view) (i : Z) : result view :=
  match vshape a, strides a with
  | rows :: cols :: rest, s0 :: s1 :: srest =>
      i' <- py_index i rows ;;
      Ok (View (base a) (offset a + i' * s0) (cols :: rest) (s1 :: srest))
  | _, _ => Raise IndexError
  end.

(** [a[r0:r1, j]]: a view of the same buffer. *)
Definition getitem_slice_int (a : view) (r0 r1 j : Z) : result view :=
  match vshape a, strides a with
  | rows :: cols :: rest, s0 :: s1 :: srest =>
      j' <- py_index j cols ;;
      let '(r, h) := py_slice r0 r1 rows in
      Ok (View (base a) (offset a + r * s0 + j' * s1) (h :: rest) (s0 :: srest))
  | _, _ => Raise IndexError
  end.

(** [np.concatenate(arrays)]: reads the views and builds a new array,
    kept as a value since nothing else refers to it. *)
Definition np_concatenate (arrays : list view) : state ndarray :=
  match arrays with
  | [] => raise ValueError
  | a0 :: _ =>
      if forallb (fun a => bool_decide (0 < length (vshape a) /\
                                        tail (vshape a) = tail (vshape a0))) arrays
      then
        fun s =>
          (Ok (NDArray (sum_list ((fun a => hd 0 (vshape a)) <$> arrays)
                          :: tail (vshape a0))
                       (mjoin (cells s <$> arrays))), s)
      else raise ValueError
  end.

Fixpoint for_list {A R : Type} (l : list A) (body : A -> state (option R))
  : state (option R) :=
  match l with
  | [] => ret None
  | x :: l' =>
      bind (body x) (fun r =>
        match r with
        | Some v => ret (Some v)
        | None => for_list l' body
        end)
  end.

Fixpoint for_gen {A R : Type} (g : generator A) (body : A -> state (option R))
  : state (option R) :=
  match g with
  | GYield a rest =>
      bind (body a) (fun r =>
        match r with
        | Some v => ret (Some v)
        | None => for_gen rest body
        end)
  | GStop => ret None
  | GRaise e => raise e
  end.

(** A [Square] instance refers to its array. *)
Record Square : Type := mkSquare { matrix : view }.

#[warnings="-register-all"]
Inductive pyobj : Type :=
| PyNone
| PyInt (z : Z)
| PyList (l : list pyobj)
| PyNdarray (a : view)
| PySquare (s : Square).

Definition size (square : Square) : result Z :=
  match vshape (matrix square) with
  | n :: _ => Ok (Z.of_nat n)
  | [] => Raise IndexError
  end.

Definition _get_rolling_windows (square : Square) (sub_square_size : Z)
  : generator view :=
  match size square with
  | Raise e => GRaise e
  | Ok n =>
      if ((sub_square_size >? n) || (sub_square_size <? 1))%Z
      then GRaise ValueError
      else
        gen_for (py_range 0 (n - sub_square_size + 1) 1) (fun start_row =>
          gen_for (py_range 0 (n - sub_square_size + 1) 1) (fun start_col =>
            gen_yield (getitem_slice_slice (matrix square)
                         start_row (start_row + sub_square_size)
                         start_col (start_col + sub_square_size))))
  end.

Definition _is_sub_square (sub_square : view) : state bool :=
  bind (lift (getitem_int_all sub_square 0)) (fun top_row =>
  bind (lift (getitem_int_all sub_square (-1))) (fun bottom_row =>
  bind (lift (getitem_slice_int sub_square 1 (-1) 0)) (fun left_column =>
  bind (lift (getitem_slice_int sub_square 1 (-1) (-1))) (fun right_column =>
  bind (np_concatenate [top_row; bottom_row; left_column; right_column])
       (fun perimeter =>
  ret (np_all_eq perimeter 1)))))).

Definition find_largest_sub_square (square : pyobj) : state (view * Z) :=
  match square with
  | PySquare sq =>
      bind (lift (size sq)) (fun m =>
      bind (for_list (py_range m 0 (-1)) (fun size =>
              for_gen (_get_rolling_windows sq size) (fun sub_square =>
                bind (_is_sub_square sub_square) (fun ok : bool =>
                  if ok then ret (Some (sub_square, size)) else ret None))))
           (fun found =>
      match found with
      | Some r => ret r
      | None =>
          bind (read (matrix sq)) (fun shown =>
            raise (SubSquareDNEError (NDArray (vshape (matrix sq)) shown)))
      end))
  | _ => raise TypeError
  end.

End Mem.

(** The array a view shows in a store. *)
Definition value_of (s : Mem.store) (a : Mem.view) : ndarray :=
  NDArray (Mem.vshape a) (Mem.cells s a).

(** The value of a [Square] that refers to a view. *)
Definition square_value (s : Mem.store) (square : Mem.Square) : Square :=
  mkSquare (value_of s (Mem.matrix square)).

(** The outcome of a search with the returned view replaced by the array
    it shows. *)
Definition shown (s : Mem.store) (r : result (Mem.view * Z)) : result (ndarray * Z) :=
  match r with
  | Ok (a, k) => Ok (value_of s a, k)
  | Raise e => Raise e
  end.

(** A matrix view: two axes, each with its stride. *)
Definition matrix_view (a : Mem.view) : Prop :=
  length (Mem.vshape a) = 2 /\ length (Mem.strides a) = 2.

(** The grid of a 3 by 3 buffer at location 0, and a store holding
    [grid_example] there and in a second buffer at location 1. *)
Definition grid_view (l : Mem.loc) : Mem.view := Mem.View l 0 [3; 3] [3; 1].

Definition store_example : Mem.store :=
  fun l => if (l <=? 1) then data grid_example else [].

(** ** From views to values *)

(** The row-major list of the [h] by [w] table of [f]. *)
Definition table {A : Type} (h w : nat) (f : nat -> nat -> A) : list A :=
  mjoin ((fun i => (fun j => f i j) <$> seq 0 w) <$> seq 0 h).

Definition result_map {A B : Type} (f : A -> B) (r : result A) : result B :=
  match r with
  | Ok a => Ok (f a)
  | Raise e => Raise e
  end.

Fixpoint gen_map {A B : Type} (f : A -> B) (g : generator A) : generator B :=
  match g with
  | GYield a rest => GYield (f a) (gen_map f rest)
  | GStop => GStop
  | GRaise e => GRaise e
  end.

(** Everything the generator yields satisfies [P]. *)
Fixpoint gen_Forall {A : Type} (P : A -> Prop) (g : generator A) : Prop :=
  match g with
  | GYield a rest => P a /\ gen_Forall P rest
  | GStop => True
  | GRaise _ => True
  end.

(** What the search has found so far, with the view replaced by the array
    it shows. *)
Definition shown_found (s : Mem.store) (found : option (Mem.view * Z))
  : option (ndarray * Z) :=
  (fun p => (value_of s p.1, p.2)) <$> found.

(** A computation on views that leaves the store [s] as it is and whose
    outcome, seen through [f], is [p]. *)
Definition refines {A B : Type} (s : Mem.store) (m : Mem.state A) (f : A -> B)
    (p : result B) : Prop :=
  exists r, m s = (r, s) /\ result_map f r = p.

(** A valid grid of side [n] held in the store: the [Square] refers to a
    matrix view whose cells form a valid grid. *)
Definition grid_in_store (s : Mem.store) (square : Mem.Square) (n : nat) : Prop :=
  matrix_view (Mem.matrix square) /\ valid_grid (square_value s square) n.

(** ** Writing into an array, and the generator of test grids *)

(** The array [a] after an assignment of the scalar [v] to the cells
    [(i, j)] with [r <= i < r + h] and [c <= j < c + w]; [cols] is the length
    of axis 1. The scalar at position [idx] of the storage belongs to the
    cell number [idx / cellsz a]. *)
Definition fill (a : ndarray) (cols r h c w : nat) (v : Z) : ndarray :=
  NDArray (shape a)
    (imap (fun idx x =>
             let cell := idx `div` cellsz a in
             if bool_decide (r <= cell `div` cols < r + h /\
                             c <= cell `mod` cols < c + w)
             then v else x)
          (data a)).

(** [a[i, :] = v] *)
Definition setitem_int_all (a : ndarray) (i : Z) (v : Z) : result ndarray :=
  match shape a with
  | rows :: cols :: rest =>
      i' <- py_index i rows ;;
      Ok (fill a cols i' 1 0 cols v)
  | _ => Raise IndexError
  end.

(** [a[:, j] = v] *)
Definition setitem_all_int (a : ndarray) (j : Z) (v : Z) : result ndarray :=
  match shape a with
  | rows :: cols :: rest =>
      j' <- py_index j cols ;;
      Ok (fill a cols 0 rows j' 1 v)
  | _ => Raise IndexError
  end.

(** [a[i, c0:c1] = v] *)
Definition setitem_int_slice (a : ndarray) (i c0 c1 : Z) (v : Z) : result ndarray :=
  match shape a with
  | rows :: cols :: rest =>
      i' <- py_index i rows ;;
      let '(c, w) := py_slice c0 c1 cols in
      Ok (fill a cols i' 1 c w v)
  | _ => Raise IndexError
  end.

(** [a[r0:r1, j] = v] *)
Definition setitem_slice_int (a : ndarray) (r0 r1 j : Z) (v : Z) : result ndarray :=
  match shape a with
  | rows :: cols :: rest =>
      j' <- py_index j cols ;;
      let '(r, h) := py_slice r0 r1 rows in
      Ok (fill a cols r h j' 1 v)
  | _ => Raise IndexError
  end.

(** What the random sources return during one call of the generator of
    test grids: the array of [np.random.randint(0, 2, size=...)] and the
    two integers of [random.randint(0, ...)]. *)
Record draws : Type := Draws {
  drawn_matrix : ndarray;
  drawn_row : Z;
  drawn_col : Z
}.

(** The draws the two libraries can return for the sides [n] and [k]: an
    [n] by [n] array with entries in [0, 2), and two integers in
    [0, n - k], bounds included. *)
Definition draws_for (rnd : draws) (n k : nat) : Prop :=
  shape (drawn_matrix rnd) = [n; n] /\
  wf_ndarray (drawn_matrix rnd) /\
  Forall (fun x => (0 <= x < 2)%Z) (data (drawn_matrix rnd)) /\
  (0 <= drawn_row rnd <= Z.of_nat n - Z.of_nat k)%Z /\
  (0 <= drawn_col rnd <= Z.of_nat n - Z.of_nat k)%Z.

(** [generate_square_with_one_valid_sub_square], with the random draws
    given. The local array is written in place before anything else
    refers to it, so each assignment is a new value of [matrix]. *)
Definition generate_square_with_one_valid_sub_square (rnd : draws)
    (square_size sub_square_size : Z) : result Square :=
  if ((sub_square_size >? square_size) || (sub_square_size <? 2))%Z
  then Raise ValueError
  else
    let matrix := drawn_matrix rnd in
    matrix <-
      (if (sub_square_size =? square_size)%Z then
         matrix <- setitem_int_all matrix 0 1 ;;
         matrix <- setitem_int_all matrix (-1) 1 ;;
         matrix <- setitem_all_int matrix 0 1 ;;
         setitem_all_int matrix (-1) 1
       else
         let row_start := drawn_row rnd in
         let col_start := drawn_col rnd in
         matrix <- setitem_int_slice matrix row_start
                     col_start (col_start + sub_square_size) 1 ;;
         matrix <- setitem_int_slice matrix (row_start + sub_square_size - 1)
                     col_start (col_start + sub_square_size) 1 ;;
         matrix <- setitem_slice_int matrix
                     row_start (row_start + sub_square_size) col_start 1 ;;
         setitem_slice_int matrix
           row_start (row_start + sub_square_size)
           (col_start + sub_square_size - 1) 1) ;;
    Square_new (PyNdarray matrix).

(** The cell [(i, j)] lies on the border of the placement of side [k] at
    [(row, col)]. *)
Definition on_border (k row col i j : nat) : Prop :=
  row <= i < row + k /\ col <= j < col + k /\
  (i = row \/ i = row + k - 1 \/ j = col \/ j = col + k - 1).

(** The drawn array with the border of the placement of side [k] at
    [(row, col)] set to 1, in the order of the four assignments. *)
Definition with_border (a : ndarray) (n k row col : nat) : ndarray :=
  fill (fill (fill (fill a n row 1 col k 1) n (row + k - 1) 1 col k 1)
             n row k col 1 1)
       n row k (col + k - 1) 1 1.

(** The anchor of the sub-square the generator plants for the sides [n]
    and [k]: the origin when [k = n], the drawn anchor otherwise. *)
Definition generated_anchor (rnd : draws) (n k : nat) : nat * nat :=
  if decide (k = n) then (0, 0)
  else (Z.to_nat (drawn_row rnd), Z.to_nat (drawn_col rnd)).

(** The draws of the sample run: the all-zero 4 by 4 array and the
    anchor (1, 2). *)
Definition draws_example : draws := Draws (zeros [4; 4]) 1 2.

(** * Proofs *)

(** ** The examples of the notebook's tests *)

Example find_largest_example :
  find_largest_sub_square (PySquare (mkSquare grid_example))
  = Ok (NDArray [2; 2] [1; 1; 1; 1]%Z, 2%Z).
Proof. reflexivity. Qed.

Example find_largest_zeros :
  find_largest_sub_square (PySquare (mkSquare (zeros [3; 3])))
  = Raise (SubSquareDNEError (zeros [3; 3])).
Proof. reflexivity. Qed.

Example find_largest_raw_matrix :
  find_largest_sub_square (PyNdarray (zeros [3; 3])) = Raise TypeError.
Proof. reflexivity. Qed.

Example is_sub_square_example :
  _is_sub_square (NDArray [2; 2] [1; 1; 1; 1]%Z) = Ok true /\
  _is_sub_square (NDArray [2; 2] [1; 0; 1; 1]%Z) = Ok false.
Proof. by split. Qed.

(** ** Lists and ranges *)

Lemma lookup_join_same_length {A : Type} (n : nat) (ls : list (list A)) (j i : nat) :
  Forall (fun l => length l = n) ls ->
  i < n ->
  mjoin ls !! (j * n + i) = ls !! j ≫= (fun l => l !! i).
Proof.
  intros Hls Hi. revert j. induction Hls as [|l ls Hl _ IH]; intros j.
  - by rewrite !lookup_nil.
  - destruct j as [|j]; csimpl.
    + rewrite lookup_app_l by lia. done.
    + rewrite lookup_app_r by lia.
      replace (n + j * n + i - length l) with (j * n + i) by lia.
      apply IH.
Qed.

Lemma join_singletons {A B : Type} (f : A -> B) (l : list A) :
  mjoin ((fun x => [f x]) <$> l) = f <$> l.
Proof. induction l as [|x l IH]; csimpl; [done|]. by rewrite IH. Qed.

Lemma length_join_same_length {A : Type} (n : nat) (ls : list (list A)) :
  Forall (fun l => length l = n) ls ->
  length (mjoin ls) = length ls * n.
Proof.
  intros Hls. rewrite length_join. by apply sum_list_fmap_same.
Qed.

Lemma py_range_up (d : nat) :
  py_range 0 (Z.of_nat d) 1 = Z.of_nat <$> seq 0 d.
Proof.
  unfold py_range. simpl.
  replace ((Z.of_nat d - 0 + 1 - 1) / 1)%Z with (Z.of_nat d)
    by (rewrite Z.div_1_r; lia).
  apply list_eq. intros i.
  rewrite !list_lookup_fmap.
  destruct (decide (i < d)) as [Hi|Hi].
  - rewrite lookup_seqZ_lt, lookup_seq_lt by lia.
    cbn [fmap option_fmap option_map]. f_equal. lia.
  - rewrite lookup_seqZ_ge, lookup_seq_ge by lia. done.
Qed.

Lemma py_range_down (m : nat) :
  py_range (Z.of_nat m) 0 (-1) = (fun i => Z.of_nat (m - i)) <$> seq 0 m.
Proof.
  unfold py_range. simpl.
  replace ((Z.of_nat m - 0 - -1 - 1) / (- (-1)))%Z with (Z.of_nat m)
    by (change (- (-1))%Z with 1%Z; rewrite Z.div_1_r; lia).
  apply list_eq. intros i.
  rewrite !list_lookup_fmap.
  destruct (decide (i < m)) as [Hi|Hi].
  - rewrite lookup_seqZ_lt, lookup_seq_lt by lia.
    cbn [fmap option_fmap option_map]. f_equal. lia.
  - rewrite lookup_seqZ_ge, lookup_seq_ge by lia. done.
Qed.

(** ** Indices and slices *)

Lemma py_index_nonneg (i d : nat) :
  i < d -> py_index (Z.of_nat i) d = Ok i.
Proof.
  intros H. unfold py_index.
  rewrite bool_decide_eq_true_2 by lia.
  destruct (Z.ltb_spec (Z.of_nat i) 0); [lia|]. f_equal. lia.
Qed.

Lemma py_index_first (d : nat) :
  0 < d -> py_index 0 d = Ok 0.
Proof. intros H. by apply (py_index_nonneg 0 d). Qed.

Lemma py_index_last (d : nat) :
  0 < d -> py_index (-1) d = Ok (d - 1).
Proof.
  intros H. unfold py_index.
  rewrite bool_decide_eq_true_2 by lia.
  destruct (Z.ltb_spec (-1) 0); [|lia]. f_equal. lia.
Qed.

Lemma py_slice_inside (r k d : nat) :
  r + k <= d ->
  py_slice (Z.of_nat r) (Z.of_nat r + Z.of_nat k) d = (r, k).
Proof.
  intros H. unfold py_slice, clip_bound.
  destruct (Z.ltb_spec (Z.of_nat r) 0); [lia|].
  destruct (Z.ltb_spec (Z.of_nat r + Z.of_nat k) 0); [lia|].
  f_equal; lia.
Qed.

Lemma py_slice_interior (d : nat) :
  py_slice 1 (-1) d = (Nat.min 1 d, d - 2).
Proof.
  unfold py_slice, clip_bound.
  destruct (Z.ltb_spec 1 0); [lia|].
  destruct (Z.ltb_spec (-1) 0); [|lia].
  f_equal; lia.
Qed.

(** ** Row segments and extracted blocks of a matrix *)

Lemma cellsz_matrix (a : ndarray) (rows cols : nat) :
  shape a = [rows; cols] -> cellsz a = 1.
Proof. intros H. unfold cellsz. by rewrite H. Qed.

Lemma wf_matrix_length (a : ndarray) (rows cols : nat) :
  shape a = [rows; cols] -> wf_ndarray a -> length (data a) = rows * cols.
Proof. unfold wf_ndarray. intros -> ->. simpl. lia. Qed.

Lemma row_segment_lookup (a : ndarray) (cols i c0 w j : nat) :
  cellsz a = 1 -> j < w ->
  row_segment a cols i c0 w !! j = data a !! (i * cols + c0 + j).
Proof.
  intros Hc Hj. unfold row_segment. rewrite Hc, !Nat.mul_1_r.
  rewrite lookup_take_lt by done. by rewrite lookup_drop.
Qed.

Lemma row_segment_length (a : ndarray) (cols i c0 w : nat) :
  cellsz a = 1 -> i * cols + c0 + w <= length (data a) ->
  length (row_segment a cols i c0 w) = w.
Proof.
  intros Hc Hlen. unfold row_segment. rewrite Hc, !Nat.mul_1_r.
  rewrite length_take, length_drop. lia.
Qed.

Section blocks.
Variables (a : ndarray) (rows cols : nat).
Hypothesis Hshape : shape a = [rows; cols].
Hypothesis Hwf : wf_ndarray a.

Variables (r h c w : nat).
Hypothesis Hr : r + h <= rows.
Hypothesis Hc : c + w <= cols.

Lemma segments_rows_length :
  Forall (fun l => length l = w)
         ((fun i => row_segment a cols i c w) <$> seq r h).
Proof.
  apply Forall_fmap, Forall_forall. intros i Hi. simpl.
  apply elem_of_seq in Hi.
  apply row_segment_length; [by eapply cellsz_matrix|].
  rewrite (wf_matrix_length a rows cols) by done. nia.
Qed.

Lemma segments_wf (sh : list nat) :
  product sh = h * w -> wf_ndarray (segments a cols r h c w sh).
Proof.
  intros Hsh. unfold wf_ndarray, segments. simpl.
  rewrite (length_join_same_length w) by apply segments_rows_length.
  rewrite length_fmap, length_seq. done.
Qed.

Lemma segments_data_lookup (i j : nat) (sh : list nat) :
  i < h -> j < w ->
  data (segments a cols r h c w sh) !! (i * w + j)
  = data a !! ((r + i) * cols + (c + j)).
Proof.
  intros Hi Hj. unfold segments. simpl.
  rewrite (lookup_join_same_length w) by (apply segments_rows_length || done).
  rewrite list_lookup_fmap, lookup_seq_lt by done. simpl.
  rewrite row_segment_lookup by (by eapply cellsz_matrix || done).
  f_equal. lia.
Qed.

Lemma segments_item (i j : nat) :
  i < h -> j < w ->
  item (segments a cols r h c w [h; w]) i j = item a (r + i) (c + j).
Proof.
  intros Hi Hj.
  assert (shape (segments a cols r h c w [h; w]) = [h; w]) as Hsh by done.
  unfold item at 1. rewrite Hsh.
  rewrite bool_decide_eq_true_2 by done.
  rewrite segments_data_lookup by done.
  unfold item. rewrite Hshape. by rewrite bool_decide_eq_true_2 by lia.
Qed.
End blocks.

Lemma item_is_Some (a : ndarray) (rows cols i j : nat) :
  shape a = [rows; cols] -> wf_ndarray a -> i < rows -> j < cols ->
  is_Some (item a i j).
Proof.
  intros Hs Hwf Hi Hj. unfold item. rewrite Hs.
  rewrite bool_decide_eq_true_2 by done.
  apply lookup_lt_is_Some. rewrite (wf_matrix_length a rows cols) by done. nia.
Qed.

(** ** What validation guarantees *)

Lemma np_all_isin_binary (a : ndarray) :
  np_all_isin a [0%Z; 1%Z] = true ->
  Forall (fun x => x = 0%Z \/ x = 1%Z) (data a).
Proof.
  unfold np_all_isin. intros Hall%Is_true_true%forallb_True.
  eapply Forall_impl; [exact Hall|]. intros x Hx. simpl in Hx.
  destruct (Z.eqb_spec x 0); [by left|].
  destruct (Z.eqb_spec x 1); [by right|]. done.
Qed.

Lemma valid_matrix_inv (a : ndarray) :
  _valid_matrix (PyNdarray a) = Ok tt ->
  exists n, shape a = [n; n] /\ Forall (fun x => x = 0%Z \/ x = 1%Z) (data a).
Proof.
  unfold _valid_matrix. destruct (ndim a =? 2); simpl; [|done].
  destruct (shape a) as [|rows [|cols [|? ?]]] eqn:Hs; try done.
  destruct (Nat.eqb_spec rows cols) as [->|]; simpl; [|done].
  destruct (np_all_isin a [0%Z; 1%Z]) eqn:Hbin; simpl; [|done].
  intros _. exists cols. split; [done|]. by apply np_all_isin_binary.
Qed.

Lemma valid_grid_inv (square : Square) (n : nat) :
  valid_grid square n ->
  shape (matrix square) = [n; n] /\
  length (data (matrix square)) = n * n /\
  Forall (fun x => x = 0%Z \/ x = 1%Z) (data (matrix square)).
Proof.
  intros (Hwf & Hnew & Hsize). unfold Square_new in Hnew.
  destruct (_valid_matrix (PyNdarray (matrix square))) as [[]|e] eqn:Hv; [|done].
  apply valid_matrix_inv in Hv as (n' & Hs & Hbin).
  unfold size in Hsize. rewrite Hs in Hsize.
  assert (n' = n) as -> by (injection Hsize; lia).
  split; [done|]. split; [|done].
  by apply (wf_matrix_length _ n n).
Qed.

Lemma window_inside (square : Square) (n k row col : nat) :
  shape (matrix square) = [n; n] ->
  row + k <= n -> col + k <= n ->
  window square k row col = Ok (segments (matrix square) n row k col k [k; k]).
Proof.
  intros Hs Hr Hc. unfold window, getitem_slice_slice. rewrite Hs.
  by rewrite !py_slice_inside by done.
Qed.

(** ** The perimeter test *)

Lemma forallb_eq_one (l : list Z) :
  forallb (fun x => (x =? 1)%Z) l = true <-> Forall (fun x => x = 1%Z) l.
Proof.
  rewrite <- Is_true_true, forallb_True. apply Forall_iff. intros x.
  rewrite Is_true_true. apply Z.eqb_eq.
Qed.

Section block_ones.
Variables (a : ndarray) (rows cols : nat).
Hypothesis Hshape : shape a = [rows; cols].
Hypothesis Hwf : wf_ndarray a.

Lemma segments_all_ones (r h c w : nat) (sh : list nat) :
  r + h <= rows -> c + w <= cols ->
  Forall (fun x => x = 1%Z) (data (segments a cols r h c w sh)) <->
  forall i j, i < h -> j < w -> item a (r + i) (c + j) = Some 1%Z.
Proof.
  intros Hr Hc. rewrite Forall_lookup. split.
  - intros Hall i j Hi Hj.
    destruct (item_is_Some a rows cols (r + i) (c + j)) as [x Hx];
      [done | done | lia | lia |].
    rewrite Hx. f_equal. apply (Hall (i * w + j)).
    rewrite (segments_data_lookup a rows cols) by done.
    unfold item in Hx. rewrite Hshape in Hx.
    by rewrite bool_decide_eq_true_2 in Hx by lia.
  - intros Hall idx x Hx.
    assert (idx < h * w) as Hidx.
    { apply lookup_lt_Some in Hx.
      unfold segments in Hx. simpl in Hx.
      rewrite (length_join_same_length w) in Hx
        by (by eapply segments_rows_length).
      by rewrite length_fmap, length_seq in Hx. }
    assert (0 < w) as Hw by nia.
    pose proof (Nat.div_mod_eq idx w) as Hdm.
    pose proof (Nat.mod_upper_bound idx w ltac:(lia)) as Hmod.
    assert (idx `div` w < h) as Hdiv by (apply Nat.Div0.div_lt_upper_bound; lia).
    replace idx with (idx `div` w * w + idx `mod` w) in Hx by lia.
    rewrite (segments_data_lookup a rows cols) in Hx by done.
    specialize (Hall _ _ Hdiv Hmod).
    unfold item in Hall. rewrite Hshape in Hall.
    rewrite bool_decide_eq_true_2 in Hall by lia. congruence.
Qed.
End block_ones.

(** Close a goal [item a i j = v] with a fact about the same cell written
    with other index expressions. *)
Ltac item_from H :=
  let Hu := fresh "Hu" in
  first [ pose proof (H ltac:(lia) ltac:(lia)) as Hu | pose proof H as Hu ];
  match type of Hu with
  | item _ ?x ?y = _ =>
      match goal with
      | |- item _ ?x' ?y' = _ =>
          replace x' with x by lia; replace y' with y by lia; exact Hu
      end
  end.

(** The test on a matrix with at least one row and one column: it never
    raises, and it holds exactly when the first and last rows and the
    cells of the first and last columns strictly between them are all 1. *)
Lemma is_sub_square_matrix (a : ndarray) (rows cols : nat) :
  shape a = [rows; cols] -> wf_ndarray a -> 0 < rows -> 0 < cols ->
  exists b, _is_sub_square a = Ok b /\
    (b = true <->
     (forall j, j < cols ->
        item a 0 j = Some 1%Z /\ item a (rows - 1) j = Some 1%Z) /\
     (forall i, 0 < i < rows - 1 ->
        item a i 0 = Some 1%Z /\ item a i (cols - 1) = Some 1%Z)).
Proof.
  intros Hs Hwf Hrows Hcols.
  unfold _is_sub_square, getitem_int_all, getitem_slice_int. rewrite Hs.
  rewrite !py_index_first, !py_index_last by done.
  rewrite py_slice_interior. cbn [bind].
  unfold np_concatenate. cbn [forallb ndim shape segments length tail].
  rewrite !bool_decide_eq_true_2 by (split; [lia|done]).
  cbn [andb bind]. eexists; split; [done|].
  unfold np_all_eq. cbn [data fmap list_fmap mjoin list_join].
  rewrite forallb_eq_one, !Forall_app.
  change (row_segment a cols 0 0 cols ++ [])
    with (data (segments a cols 0 1 0 cols [cols])).
  change (row_segment a cols (rows - 1) 0 cols ++ [])
    with (data (segments a cols (rows - 1) 1 0 cols [cols])).
  change (mjoin ((fun i => row_segment a cols i 0 1) <$> seq (1 `min` rows) (rows - 2)))
    with (data (segments a cols (1 `min` rows) (rows - 2) 0 1 [rows - 2])).
  change (mjoin ((fun i => row_segment a cols i (cols - 1) 1)
                   <$> seq (1 `min` rows) (rows - 2)))
    with (data (segments a cols (1 `min` rows) (rows - 2) (cols - 1) 1 [rows - 2])).
  rewrite !(segments_all_ones a rows cols) by (done || lia).
  split.
  - intros (Htop & Hbot & Hleft & Hright & _). split.
    + intros j Hj. split; [item_from (Htop 0 j) | item_from (Hbot 0 j)].
    + intros i Hi.
      split; [item_from (Hleft (i - 1) 0) | item_from (Hright (i - 1) 0)].
  - intros [Hrow Hcol]. repeat split.
    + intros i j Hi Hj. item_from (proj1 (Hrow j Hj)).
    + intros i j Hi Hj. item_from (proj2 (Hrow j Hj)).
    + intros i j Hi Hj. item_from (proj1 (Hcol (1 + i) ltac:(lia))).
    + intros i j Hi Hj. item_from (proj2 (Hcol (1 + i) ltac:(lia))).
    + constructor.
Qed.

(** ** The generator of windows *)

Lemma gen_seq_of_list {A : Type} (l l' : list A) :
  gen_seq (gen_of_list l) (gen_of_list l') = gen_of_list (l ++ l').
Proof. induction l as [|x l IH]; simpl; [done|]. by rewrite IH. Qed.

Lemma gen_for_fmap_of_list {A B C : Type} (g : A -> B) (l : list A)
    (body : B -> generator C) (f : A -> list C) :
  (forall x, x ∈ l -> body (g x) = gen_of_list (f x)) ->
  gen_for (g <$> l) body = gen_of_list (mjoin (f <$> l)).
Proof.
  induction l as [|x l IH]; intros Hbody; csimpl; [done|].
  rewrite Hbody by left. rewrite IH by (intros; apply Hbody; by right).
  apply gen_seq_of_list.
Qed.

Lemma windows_list_length (a : ndarray) (n k : nat) :
  length (windows_list a n k) = (n - k + 1) * (n - k + 1).
Proof.
  unfold windows_list.
  rewrite (length_join_same_length (n - k + 1)).
  - by rewrite length_fmap, length_seq.
  - apply Forall_fmap, Forall_forall. intros row _. simpl.
    by rewrite length_fmap, length_seq.
Qed.

Lemma windows_list_lookup (a : ndarray) (n k row col : nat) :
  row < n - k + 1 -> col < n - k + 1 ->
  windows_list a n k !! (row * (n - k + 1) + col)
  = Some (segments a n row k col k [k; k]).
Proof.
  intros Hrow Hcol. unfold windows_list.
  rewrite (lookup_join_same_length (n - k + 1)); [|..|done].
  - rewrite list_lookup_fmap, lookup_seq_lt by done. simpl.
    by rewrite list_lookup_fmap, lookup_seq_lt by done.
  - apply Forall_fmap, Forall_forall. intros r _. simpl.
    by rewrite length_fmap, length_seq.
Qed.

Lemma windows_list_lookup_inv (a : ndarray) (n k idx : nat) (w : ndarray) :
  windows_list a n k !! idx = Some w ->
  exists row col, row < n - k + 1 /\ col < n - k + 1 /\
    idx = row * (n - k + 1) + col /\
    w = segments a n row k col k [k; k].
Proof.
  intros Hw. pose proof (lookup_lt_Some _ _ _ Hw) as Hlt.
  rewrite windows_list_length in Hlt.
  set (d := n - k + 1) in *.
  assert (0 < d) as Hd by (unfold d; lia).
  pose proof (Nat.div_mod_eq idx d) as Hdm.
  pose proof (Nat.mod_upper_bound idx d ltac:(lia)) as Hmod.
  assert (idx `div` d < d) as Hdiv by (apply Nat.Div0.div_lt_upper_bound; lia).
  exists (idx `div` d), (idx `mod` d). repeat split; [done|done|lia|].
  replace idx with (idx `div` d * d + idx `mod` d) in Hw by lia.
  unfold d in *. rewrite windows_list_lookup in Hw by done. congruence.
Qed.

Lemma get_rolling_windows_valid (square : Square) (n k : nat) :
  valid_grid square n -> 1 <= k <= n ->
  _get_rolling_windows square (Z.of_nat k)
  = gen_of_list (windows_list (matrix square) n k).
Proof.
  intros Hv Hk. pose proof (valid_grid_inv _ _ Hv) as (Hs & _ & _).
  destruct Hv as (_ & _ & Hsize).
  unfold _get_rolling_windows. rewrite Hsize.
  destruct (Z.gtb_spec (Z.of_nat k) (Z.of_nat n)); [lia|].
  destruct (Z.ltb_spec (Z.of_nat k) 1); [lia|]. cbn [orb].
  replace (Z.of_nat n - Z.of_nat k + 1)%Z with (Z.of_nat (n - k + 1)) by lia.
  rewrite py_range_up. unfold windows_list.
  apply gen_for_fmap_of_list. intros row Hrow.
  rewrite (gen_for_fmap_of_list _ _ _
             (fun col => [segments (matrix square) n row k col k [k; k]])).
  - f_equal. apply join_singletons.
  - intros col Hcol. apply elem_of_seq in Hrow, Hcol.
    pose proof (window_inside square n k row col Hs) as Hw.
    unfold window in Hw. by rewrite Hw by lia.
Qed.

(** Over windows on which the test does not raise, the inner loop returns
    the first one that passes. *)
Lemma for_gen_list_find (size : Z) (ws : list ndarray) :
  Forall (fun w => exists b, _is_sub_square w = Ok b) ws ->
  for_gen (gen_of_list ws) (test_window size)
  = Ok ((fun p => (p.2, size)) <$> list_find passes ws).
Proof.
  induction 1 as [|w ws [b Hb] _ IH]; [done|].
  cbn [gen_of_list foldr for_gen]. fold (gen_of_list ws).
  unfold test_window at 1. rewrite Hb. cbn [bind list_find].
  destruct b.
  - rewrite decide_True by done. done.
  - rewrite decide_False by (unfold passes; congruence).
    rewrite IH. by destruct (list_find passes ws) as [[i x]|].
Qed.

Lemma windows_do_not_raise (a : ndarray) (n k : nat) :
  shape a = [n; n] -> wf_ndarray a -> 1 <= k <= n ->
  Forall (fun w => exists b, _is_sub_square w = Ok b) (windows_list a n k).
Proof.
  intros Hs Hwf Hk. apply Forall_lookup. intros idx w Hw.
  apply windows_list_lookup_inv in Hw as (row & col & Hrow & Hcol & _ & ->).
  destruct (is_sub_square_matrix (segments a n row k col k [k; k]) k k)
    as (b & Hb & _); [done | | lia | lia | by exists b].
  apply (segments_wf a n n); [done | done | lia | lia | simpl; lia].
Qed.

Lemma inner_loop_valid (square : Square) (n k : nat) :
  valid_grid square n -> 1 <= k <= n ->
  for_gen (_get_rolling_windows square (Z.of_nat k)) (test_window (Z.of_nat k))
  = Ok ((fun p => (p.2, Z.of_nat k)) <$> scan_size (matrix square) n k).
Proof.
  intros Hv Hk. rewrite (get_rolling_windows_valid square n) by done.
  apply for_gen_list_find.
  pose proof (valid_grid_inv _ _ Hv) as (Hs & _ & _).
  destruct Hv as (Hwf & _). by apply windows_do_not_raise.
Qed.

Lemma outer_loop_valid (square : Square) (n m : nat) :
  valid_grid square n -> m <= n ->
  for_list ((fun i => Z.of_nat (n - i)) <$> seq (n - m) m)
           (fun size => for_gen (_get_rolling_windows square size) (test_window size))
  = Ok ((fun p => (p.2, Z.of_nat p.1)) <$> search_from (matrix square) n m).
Proof.
  intros Hv. induction m as [|m IH]; intros Hm; [done|].
  cbn [seq fmap list_fmap for_list search_from].
  replace (n - (n - S m)) with (S m) by lia.
  rewrite (inner_loop_valid square n) by (done || lia).
  cbn [bind].
  destruct (scan_size (matrix square) n (S m)) as [[idx w]|]; [done|].
  cbn [fmap option_fmap option_map].
  replace (S (n - S m)) with (n - m) by lia.
  apply IH. lia.
Qed.

Lemma find_largest_valid (square : Square) (n : nat) :
  valid_grid square n ->
  find_largest_sub_square (PySquare square)
  = match search_from (matrix square) n n with
    | Some (k, w) => Ok (w, Z.of_nat k)
    | None => Raise (SubSquareDNEError (matrix square))
    end.
Proof.
  intros Hv. unfold find_largest_sub_square.
  destruct Hv as (Hwf & Hnew & Hsize). rewrite Hsize. cbn [bind].
  rewrite py_range_down.
  pose proof (outer_loop_valid square n n (conj Hwf (conj Hnew Hsize))
                ltac:(lia)) as Hloop.
  rewrite Nat.sub_diag in Hloop. unfold test_window in Hloop.
  rewrite Hloop. cbn [bind].
  by destruct (search_from (matrix square) n n) as [[k w]|].
Qed.

(** ** What the search finds *)

Lemma scan_size_Some (a : ndarray) (n k idx : nat) (w : ndarray) :
  scan_size a n k = Some (idx, w) ->
  exists row col, row < n - k + 1 /\ col < n - k + 1 /\
    w = segments a n row k col k [k; k] /\ passes w /\
    forall row' col', row' < n - k + 1 -> col' < n - k + 1 ->
      row' < row \/ (row' = row /\ col' < col) ->
      ~ passes (segments a n row' k col' k [k; k]).
Proof.
  unfold scan_size. intros (Hw & Hp & Hfirst)%list_find_Some.
  apply windows_list_lookup_inv in Hw as (row & col & Hrow & Hcol & -> & ->).
  exists row, col. repeat split; [done | done | done |].
  intros row' col' Hrow' Hcol' Hlt.
  apply (Hfirst (row' * (n - k + 1) + col')).
  - by apply windows_list_lookup.
  - nia.
Qed.

Lemma scan_size_None (a : ndarray) (n k row col : nat) :
  scan_size a n k = None ->
  row < n - k + 1 -> col < n - k + 1 ->
  ~ passes (segments a n row k col k [k; k]).
Proof.
  unfold scan_size. intros Hnone Hrow Hcol.
  rewrite list_find_None, Forall_lookup in Hnone.
  apply (Hnone (row * (n - k + 1) + col)). by apply windows_list_lookup.
Qed.

Lemma search_from_Some (a : ndarray) (n m k : nat) (w : ndarray) :
  search_from a n m = Some (k, w) ->
  1 <= k <= m /\
  (exists idx, scan_size a n k = Some (idx, w)) /\
  (forall k', k < k' <= m -> scan_size a n k' = None).
Proof.
  induction m as [|m IH]; [done|]. cbn [search_from].
  destruct (scan_size a n (S m)) as [[idx w']|] eqn:Hscan.
  - intros [= <- <-]. split; [lia|]. split; [by exists idx|]. lia.
  - intros (Hk & Hidx & Hlarger)%IH. split; [lia|]. split; [done|].
    intros k' Hk'. destruct (decide (k' = S m)) as [->|]; [done|].
    apply Hlarger. lia.
Qed.

Lemma search_from_None (a : ndarray) (n m k : nat) :
  search_from a n m = None -> 1 <= k <= m -> scan_size a n k = None.
Proof.
  induction m as [|m IH]; [lia|]. cbn [search_from].
  destruct (scan_size a n (S m)) as [[idx w']|] eqn:Hscan; [done|].
  intros Hnone Hk. destruct (decide (k = S m)) as [->|]; [done|].
  apply IH; [done|lia].
Qed.

Lemma qualifies_inside (square : Square) (n k row col : nat) :
  shape (matrix square) = [n; n] -> row + k <= n -> col + k <= n ->
  qualifies square k row col = true <->
  passes (segments (matrix square) n row k col k [k; k]).
Proof.
  intros Hs Hrow Hcol. unfold qualifies, passes.
  rewrite (window_inside square n) by done.
  destruct (_is_sub_square _) as [[|]|e]; naive_solver.
Qed.

(** The outcome of the search on a valid grid: either the first passing
    placement in the scan order (sides from [n] down to 1, anchors row by
    row), or the not-found error when no placement passes. *)
Lemma find_largest_spec (square : Square) (n : nat) :
  valid_grid square n ->
  (exists k row col w,
     find_largest_sub_square (PySquare square) = Ok (w, Z.of_nat k) /\
     1 <= k <= n /\ row + k <= n /\ col + k <= n /\
     window square k row col = Ok w /\
     qualifies square k row col = true /\
     (forall k' row' col', k < k' <= n -> row' + k' <= n -> col' + k' <= n ->
        qualifies square k' row' col' = false) /\
     (forall row' col', row' + k <= n -> col' + k <= n ->
        row' < row \/ (row' = row /\ col' < col) ->
        qualifies square k row' col' = false))
  \/
  (find_largest_sub_square (PySquare square)
     = Raise (SubSquareDNEError (matrix square)) /\
   forall k row col, 1 <= k <= n -> row + k <= n -> col + k <= n ->
     qualifies square k row col = false).
Proof.
  intros Hv. rewrite (find_largest_valid square n) by done.
  pose proof (valid_grid_inv _ _ Hv) as (Hs & _ & _).
  destruct (search_from (matrix square) n n) as [[k w]|] eqn:Hsearch.
  - left. apply search_from_Some in Hsearch as (Hk & [idx Hscan] & Hlarger).
    apply scan_size_Some in Hscan
      as (row & col & Hrow & Hcol & -> & Hp & Hfirst).
    exists k, row, col, (segments (matrix square) n row k col k [k; k]).
    split; [done|]. split; [done|]. split; [lia|]. split; [lia|].
    split; [apply (window_inside square n); [done|lia..] |].
    split; [apply (qualifies_inside square n); [done|lia..|done] |].
    split.
    + intros k' row' col' Hk' Hrow' Hcol'.
      apply not_true_is_false. rewrite (qualifies_inside square n) by done.
      apply scan_size_None; [by apply Hlarger | lia | lia].
    + intros row' col' Hrow' Hcol' Hlt.
      apply not_true_is_false. rewrite (qualifies_inside square n) by done.
      apply Hfirst; [lia | lia | done].
  - right. split; [done|]. intros k row col Hk Hrow Hcol.
    apply not_true_is_false. rewrite (qualifies_inside square n) by done.
    apply scan_size_None; [by eapply search_from_None | lia | lia].
Qed.

(** * The claims of the specification *)

(** ** The scan order of the search *)

(** C1: on a valid grid with at least one qualifying placement, the search
    returns the first qualifying placement of the scan that tries the sides
    from [n] down to 1 and, for each side, the anchors row by row and
    column by column; so the side is the largest qualifying one and ties go
    to the top-most, then left-most anchor. On the grid
    [[0,1,1],[0,1,1],[1,1,1]] the result is side 2 and [[1,1],[1,1]], the
    block anchored at (0, 1). *)
Theorem find_largest_first_qualifying (square : Square) (n : nat)
    (Hvalid : valid_grid square n)
    (Hsome : exists k row col,
               placement n k row col /\ qualifies square k row col = true) :
  returns_first_placement square n /\
  find_largest_sub_square (PySquare (mkSquare grid_example))
    = Ok (NDArray [2; 2] [1; 1; 1; 1]%Z, 2%Z) /\
  window (mkSquare grid_example) 2 0 1 = Ok (NDArray [2; 2] [1; 1; 1; 1]%Z).
Proof.
  split; [|by split].
  destruct (find_largest_spec square n Hvalid)
    as [(k & row & col & w & Hres & Hk & Hrow & Hcol & Hw & Hq & Hlarger & Hfirst)
       | [_ Hnone]].
  - exists k, row, col, w. unfold placement.
    split; [done|]. split; [done|]. split; [done|]. split; [done|]. split.
    + intros k' row' col' (Hk' & Hrow' & Hcol') Hlt. apply Hlarger; lia.
    + intros row' col' (_ & Hrow' & Hcol') Hlt. by apply Hfirst.
  - destruct Hsome as (k & row & col & (Hk & Hrow & Hcol) & Hq).
    rewrite Hnone in Hq by done. done.
Qed.

Lemma grid_example_valid : valid_grid (mkSquare grid_example) 3.
Proof. by repeat split. Defined.

Lemma find_largest_first_qualifying_witness :
  returns_first_placement (mkSquare grid_example) 3 /\
  find_largest_sub_square (PySquare (mkSquare grid_example))
    = Ok (NDArray [2; 2] [1; 1; 1; 1]%Z, 2%Z) /\
  window (mkSquare grid_example) 2 0 1 = Ok (NDArray [2; 2] [1; 1; 1; 1]%Z).
Proof.
  apply (find_largest_first_qualifying (mkSquare grid_example) 3).
  - exact grid_example_valid.
  - exists 2, 0, 1. unfold placement. repeat split; (lia || reflexivity).
Defined.

(** ** The perimeter predicate *)

(** C2: on a square matrix of side [m >= 1] the perimeter test returns a
    boolean; for [m = 1] it is true exactly when the single cell is 1, and
    for [m >= 2] exactly when every cell of row 0, row [m - 1], column 0 and
    column [m - 1] is 1. This holds for any integer entries, so in
    particular for entries in {0, 1}, and covers [m = 1] and [m = 2], where
    the slices [1:-1] of the side columns are empty. *)
Theorem is_sub_square_perimeter (a : ndarray) (m : nat)
    (Hm : 1 <= m) (Hshape : shape a = [m; m]) (Hwf : wf_ndarray a) :
  exists b, _is_sub_square a = Ok b /\
    (m = 1 -> (b = true <-> item a 0 0 = Some 1%Z)) /\
    (2 <= m ->
     (b = true <->
      forall j, j < m ->
        item a 0 j = Some 1%Z /\ item a (m - 1) j = Some 1%Z /\
        item a j 0 = Some 1%Z /\ item a j (m - 1) = Some 1%Z)).
Proof.
  destruct (is_sub_square_matrix a m m Hshape Hwf) as (b & Hb & Hiff);
    [lia | lia |].
  exists b. split; [done|]. split.
  - intros ->. rewrite Hiff. split.
    + intros [Hrow _]. apply (Hrow 0). lia.
    + intros H00. split.
      * intros j Hj. replace j with 0 by lia. by split.
      * intros i Hi. lia.
  - intros Hm2. rewrite Hiff. split.
    + intros [Hrow Hcol] j Hj.
      destruct (Hrow j Hj) as [Htop Hbot].
      split; [done|]. split; [done|].
      destruct (decide (j = 0)) as [->|Hj0].
      { split; [apply (Hrow 0); lia|]. apply (Hrow (m - 1)). lia. }
      destruct (decide (j = m - 1)) as [->|Hjm].
      { split; [apply (Hrow 0); lia|]. apply (Hrow (m - 1)). lia. }
      apply Hcol. lia.
    + intros Hall. split.
      * intros j Hj. destruct (Hall j Hj) as (? & ? & _). by split.
      * intros i Hi. destruct (Hall i ltac:(lia)) as (_ & _ & ? & ?). by split.
Qed.

Lemma is_sub_square_perimeter_witness :
  exists b, _is_sub_square (NDArray [2; 2] [1; 1; 1; 1]%Z) = Ok b /\
    (2 = 1 -> (b = true <-> item (NDArray [2; 2] [1; 1; 1; 1]%Z) 0 0 = Some 1%Z)) /\
    (2 <= 2 ->
     (b = true <->
      forall j, j < 2 ->
        item (NDArray [2; 2] [1; 1; 1; 1]%Z) 0 j = Some 1%Z /\
        item (NDArray [2; 2] [1; 1; 1; 1]%Z) (2 - 1) j = Some 1%Z /\
        item (NDArray [2; 2] [1; 1; 1; 1]%Z) j 0 = Some 1%Z /\
        item (NDArray [2; 2] [1; 1; 1; 1]%Z) j (2 - 1) = Some 1%Z)).
Proof.
  apply (is_sub_square_perimeter (NDArray [2; 2] [1; 1; 1; 1]%Z) 2);
    [lia | reflexivity | reflexivity].
Defined.

(** ** The enumeration of placements *)

(** C3: on a valid grid of side [n], for a side with [1 <= size <= n], the
    generator stops normally after yielding exactly [(n - size + 1)^2]
    windows; the window for the anchor [(row, col)] comes at position
    [row * (n - size + 1) + col], that is in row-major anchor order, and it
    is the [size] by [size] matrix whose cell [(i, j)] is the cell
    [(row + i, col + j)] of the grid. *)
Theorem get_rolling_windows_enumeration (square : Square) (n : nat) (sub_square_size : Z)
    (Hvalid : valid_grid square n)
    (Hsize : (1 <= sub_square_size <= Z.of_nat n)%Z) :
  let k := Z.to_nat sub_square_size in
  exists ws,
    _get_rolling_windows square sub_square_size = gen_of_list ws /\
    length ws = (n - k + 1) ^ 2 /\
    forall row col, row <= n - k -> col <= n - k ->
      exists w,
        ws !! (row * (n - k + 1) + col) = Some w /\
        window square k row col = Ok w /\
        shape w = [k; k] /\ wf_ndarray w /\
        forall i j, i < k -> j < k ->
          item w i j = item (matrix square) (row + i) (col + j).
Proof.
  intros k. assert (1 <= k <= n) as Hk by lia.
  pose proof (valid_grid_inv _ _ Hvalid) as (Hs & _ & _).
  pose proof Hvalid as (Hwf & _).
  exists (windows_list (matrix square) n k). split.
  { replace sub_square_size with (Z.of_nat k) by lia.
    by apply get_rolling_windows_valid. }
  split.
  { rewrite windows_list_length. simpl. lia. }
  intros row col Hrow Hcol.
  exists (segments (matrix square) n row k col k [k; k]).
  split; [apply windows_list_lookup; lia|].
  split; [apply (window_inside square n); [done|lia..]|].
  split; [done|].
  split; [apply (segments_wf _ n n); [done | done | lia | lia | simpl; lia]|].
  intros i j Hi Hj. apply (segments_item _ n n); (done || lia).
Qed.

Lemma get_rolling_windows_enumeration_witness :
  let k := Z.to_nat 2 in
  exists ws,
    _get_rolling_windows (mkSquare grid_example) 2 = gen_of_list ws /\
    length ws = (3 - k + 1) ^ 2 /\
    forall row col, row <= 3 - k -> col <= 3 - k ->
      exists w,
        ws !! (row * (3 - k + 1) + col) = Some w /\
        window (mkSquare grid_example) k row col = Ok w /\
        shape w = [k; k] /\ wf_ndarray w /\
        forall i j, i < k -> j < k ->
          item w i j = item (matrix (mkSquare grid_example)) (row + i) (col + j).
Proof.
  apply (get_rolling_windows_enumeration (mkSquare grid_example) 3 2).
  - exact grid_example_valid.
  - lia.
Defined.

(** ** Not found *)

(** A passing window has a 1 in its top-left corner. *)
Lemma passes_corner (a : ndarray) (n k row col : nat) :
  shape a = [n; n] -> wf_ndarray a ->
  1 <= k -> row + k <= n -> col + k <= n ->
  passes (segments a n row k col k [k; k]) ->
  item a row col = Some 1%Z.
Proof.
  intros Hs Hwf Hk Hrow Hcol Hp.
  destruct (is_sub_square_matrix (segments a n row k col k [k; k]) k k)
    as (b & Hb & Hiff);
    [done | apply (segments_wf a n n); [done | done | lia | lia | simpl; lia]
    | lia | lia |].
  unfold passes in Hp. rewrite Hb in Hp. injection Hp as ->.
  destruct Hiff as [[Hrow0 _] _]; [done|].
  destruct (Hrow0 0 ltac:(lia)) as [H00 _].
  rewrite (segments_item a n n) in H00 by (done || lia).
  by rewrite !Nat.add_0_r in H00.
Qed.

(** A window of side 1 passes exactly when its cell is 1. *)
Lemma passes_single_cell (a : ndarray) (n row col : nat) :
  shape a = [n; n] -> wf_ndarray a -> row < n -> col < n ->
  passes (segments a n row 1 col 1 [1; 1]) <-> item a row col = Some 1%Z.
Proof.
  intros Hs Hwf Hrow Hcol. split.
  - apply (passes_corner a n 1); (done || lia).
  - intros Hcell.
    destruct (is_sub_square_matrix (segments a n row 1 col 1 [1; 1]) 1 1)
      as (b & Hb & Hiff);
      [done | apply (segments_wf a n n); [done | done | lia | lia | done]
      | lia | lia |].
    unfold passes. rewrite Hb. f_equal. apply Hiff. split.
    + intros j Hj. replace j with 0 by lia. simpl.
      rewrite (segments_item a n n) by (done || lia).
      by rewrite !Nat.add_0_r.
    + intros i Hi. lia.
Qed.

(** C4: on a valid grid of side [n], the search fails with the not-found
    error exactly when no placement of any side qualifies, which is exactly
    when no cell of the grid is 1; a failing search returns no result; and
    the all-zero 3 by 3 grid fails with the not-found error. *)
Theorem find_largest_not_found (square : Square) (n : nat)
    (Hvalid : valid_grid square n) :
  ((exists m, find_largest_sub_square (PySquare square)
              = Raise (SubSquareDNEError m)) <->
   (forall k row col, placement n k row col ->
      qualifies square k row col = false)) /\
  ((forall k row col, placement n k row col ->
      qualifies square k row col = false) <->
   (forall i j, i < n -> j < n -> item (matrix square) i j <> Some 1%Z)) /\
  ((exists m, find_largest_sub_square (PySquare square)
              = Raise (SubSquareDNEError m)) ->
   forall r, find_largest_sub_square (PySquare square) <> Ok r) /\
  find_largest_sub_square (PySquare (mkSquare (zeros [3; 3])))
    = Raise (SubSquareDNEError (zeros [3; 3])).
Proof.
  pose proof (valid_grid_inv _ _ Hvalid) as (Hs & _ & _).
  pose proof Hvalid as (Hwf & _).
  split; [|split; [|split; [|done]]].
  - destruct (find_largest_spec square n Hvalid)
      as [(k & row & col & w & Hres & Hk & Hrow & Hcol & Hw & Hq & _)
         | [Hres Hnone]].
    + rewrite Hres. split; [by intros [m ?]|].
      intros Hnone. rewrite Hnone in Hq by done. done.
    + split; [|by eexists].
      intros _ k row col (Hk & Hrow & Hcol). by apply Hnone.
  - split.
    + intros Hnone i j Hi Hj Hcell.
      apply (passes_single_cell _ n) in Hcell; [|done..].
      apply (qualifies_inside square n) in Hcell; [|done|lia..].
      rewrite Hnone in Hcell; [done|]. unfold placement. lia.
    + intros Hzero k row col (Hk & Hrow & Hcol).
      apply not_true_is_false. intros Hq.
      apply (qualifies_inside square n) in Hq; [|done..].
      apply (passes_corner _ n) in Hq; [|done|done|lia|done..].
      apply (Hzero row col); [lia|lia|done].
  - intros [m Hres] r. rewrite Hres. done.
Qed.

Lemma zeros_valid : valid_grid (mkSquare (zeros [3; 3])) 3.
Proof. by repeat split. Defined.

Lemma find_largest_not_found_witness :
  (exists m, find_largest_sub_square (PySquare (mkSquare (zeros [3; 3])))
             = Raise (SubSquareDNEError m)) <->
  (forall k row col, placement 3 k row col ->
     qualifies (mkSquare (zeros [3; 3])) k row col = false).
Proof.
  exact (proj1 (find_largest_not_found (mkSquare (zeros [3; 3])) 3 zeros_valid)).
Defined.

(** ** Rejected constructor arguments *)

(** C5, as stated, fails: the 2 by 3 array of zeros and the 3 by 3 by 3 array
    of zeros are rejected for their shape, and neither is rejected with an
    error class other than [ValueError]. *)
Lemma shape_error_not_distinct :
  bad_shape (zeros [2; 3]) /\ ~ raises_distinct_shape_error (zeros [2; 3]) /\
  bad_shape (zeros [3; 3; 3]) /\ ~ raises_distinct_shape_error (zeros [3; 3; 3]).
Proof.
  split; [right; exists 2, 3; by split|].
  split; [intros (e & Hne & He); vm_compute in He; congruence|].
  split; [left; vm_compute; lia|].
  intros (e & Hne & He). vm_compute in He. congruence.
Qed.

(** C5, amended: constructing a [Square] from an array that is not
    2-dimensional, or whose row count differs from its column count, fails
    at construction with [ValueError], the same error class as the one
    raised for a square matrix with an element outside {0, 1}. *)
Theorem square_new_bad_shape (a : ndarray) (Hbad : bad_shape a) :
  Square_new (PyNdarray a) = Raise ValueError /\
  (forall b n, shape b = [n; n] ->
     ~ Forall (fun x => x = 0%Z \/ x = 1%Z) (data b) ->
     Square_new (PyNdarray b) = Raise ValueError).
Proof.
  split.
  - unfold Square_new, _valid_matrix.
    destruct Hbad as [Hdim | (rows & cols & Hs & Hne)].
    + destruct (Nat.eqb_spec (ndim a) 2); done.
    + unfold ndim. rewrite Hs. simpl.
      destruct (Nat.eqb_spec rows cols); done.
  - intros b n Hs Hbin. unfold Square_new, _valid_matrix, ndim.
    rewrite Hs. simpl. rewrite Nat.eqb_refl. simpl.
    destruct (np_all_isin b [0%Z; 1%Z]) eqn:Hall; [|done].
    exfalso. by apply Hbin, np_all_isin_binary.
Qed.

Lemma square_new_bad_shape_witness :
  Square_new (PyNdarray (zeros [2; 3])) = Raise ValueError /\
  (forall b n, shape b = [n; n] ->
     ~ Forall (fun x => x = 0%Z \/ x = 1%Z) (data b) ->
     Square_new (PyNdarray b) = Raise ValueError).
Proof.
  apply (square_new_bad_shape (zeros [2; 3])).
  right. exists 2, 3. split; [reflexivity | lia].
Defined.

(** C10: constructing a [Square] from a value that is not a NumPy array,
    such as [None] or a nested list, fails with [TypeError]; the check comes
    first, so no shape or element check decides the outcome. *)
Theorem square_new_not_array (m : pyobj)
    (Hnot : forall a, m <> PyNdarray a) :
  Square_new m = Raise TypeError /\ _valid_matrix m = Raise TypeError.
Proof.
  destruct m as [| z | l | a | s]; try done.
  by destruct (Hnot a).
Qed.

Lemma square_new_not_array_witness :
  (Square_new PyNone = Raise TypeError /\ _valid_matrix PyNone = Raise TypeError) /\
  (Square_new (PyList [PyList [PyInt 1; PyInt 0]; PyList [PyInt 0; PyInt 1]])
     = Raise TypeError /\
   _valid_matrix (PyList [PyList [PyInt 1; PyInt 0]; PyList [PyInt 0; PyInt 1]])
     = Raise TypeError).
Proof.
  split.
  - apply (square_new_not_array PyNone). intros a H. discriminate H.
  - apply (square_new_not_array
             (PyList [PyList [PyInt 1; PyInt 0]; PyList [PyInt 0; PyInt 1]])).
    intros a H. discriminate H.
Defined.

(** ** Invalid sizes, foreign values, and the returned side *)

(** C6: on a valid grid of side [n], for a side greater than [n] or smaller
    than 1 the generator raises [ValueError] when it is started, before it
    yields anything. *)
Theorem get_rolling_windows_invalid_size (square : Square) (n : nat)
    (sub_square_size : Z)
    (Hvalid : valid_grid square n)
    (Hsize : (sub_square_size > Z.of_nat n)%Z \/ (sub_square_size < 1)%Z) :
  _get_rolling_windows square sub_square_size = GRaise ValueError.
Proof.
  destruct Hvalid as (_ & _ & Hn). unfold _get_rolling_windows. rewrite Hn.
  destruct (Z.gtb_spec sub_square_size (Z.of_nat n)); [done|].
  destruct (Z.ltb_spec sub_square_size 1); [done|]. lia.
Qed.

Lemma get_rolling_windows_invalid_size_witness :
  _get_rolling_windows (mkSquare grid_example) 4 = GRaise ValueError /\
  _get_rolling_windows (mkSquare grid_example) 0 = GRaise ValueError.
Proof.
  split.
  - apply (get_rolling_windows_invalid_size (mkSquare grid_example) 3 4).
    + exact grid_example_valid.
    + left. lia.
  - apply (get_rolling_windows_invalid_size (mkSquare grid_example) 3 0).
    + exact grid_example_valid.
    + right. lia.
Defined.

(** C7: the search called on a value that is not a [Square], such as a raw
    matrix, fails with [TypeError]; nothing is searched and the value is
    not converted. *)
Theorem find_largest_not_square (square : pyobj)
    (Hnot : forall s, square <> PySquare s) :
  find_largest_sub_square square = Raise TypeError.
Proof.
  destruct square as [| z | l | a | s]; try done.
  by destruct (Hnot s).
Qed.

Lemma find_largest_not_square_witness :
  find_largest_sub_square (PyNdarray (zeros [3; 3])) = Raise TypeError.
Proof.
  apply (find_largest_not_square (PyNdarray (zeros [3; 3]))).
  intros s H. discriminate H.
Defined.

(** C8: on a valid grid with a qualifying placement of side [k], the search
    succeeds and returns a side that is at least [k]. *)
Theorem find_largest_at_least (square : Square) (n k row col : nat)
    (Hvalid : valid_grid square n)
    (Hplace : placement n k row col)
    (Hq : qualifies square k row col = true) :
  exists w size,
    find_largest_sub_square (PySquare square) = Ok (w, size) /\
    (Z.of_nat k <= size)%Z.
Proof.
  destruct Hplace as (Hk & Hrow & Hcol).
  destruct (find_largest_spec square n Hvalid)
    as [(k' & row' & col' & w & Hres & Hk' & _ & _ & _ & _ & Hlarger & _)
       | [_ Hnone]].
  - exists w, (Z.of_nat k'). split; [done|].
    destruct (decide (k' < k)) as [Hlt|]; [|lia].
    rewrite (Hlarger k row col) in Hq by (done || lia). done.
  - rewrite Hnone in Hq by done. done.
Qed.

Lemma find_largest_at_least_witness :
  exists w size,
    find_largest_sub_square (PySquare (mkSquare grid_example)) = Ok (w, size) /\
    (Z.of_nat 1 <= size)%Z.
Proof.
  apply (find_largest_at_least (mkSquare grid_example) 3 1 2 0).
  - exact grid_example_valid.
  - unfold placement. lia.
  - reflexivity.
Defined.

(** * The search through views *)

Example mem_find_largest_example :
  shown store_example
    (Mem.find_largest_sub_square (Mem.PySquare (Mem.mkSquare (grid_view 0)))
       store_example).1
  = Ok (NDArray [2; 2] [1; 1; 1; 1]%Z, 2%Z).
Proof. reflexivity. Qed.

(** ** Row-major tables *)

Lemma table_rows_length {A : Type} (w : nat) (f : nat -> nat -> A) (l : list nat) :
  Forall (fun r => length r = w) ((fun i => (fun j => f i j) <$> seq 0 w) <$> l).
Proof.
  apply Forall_fmap, Forall_forall. intros i _. simpl.
  by rewrite length_fmap, length_seq.
Qed.

Lemma table_lookup {A : Type} (h w : nat) (f : nat -> nat -> A) (i j : nat) :
  i < h -> j < w -> table h w f !! (i * w + j) = Some (f i j).
Proof.
  intros Hi Hj. unfold table.
  rewrite (lookup_join_same_length w) by (apply table_rows_length || done).
  rewrite list_lookup_fmap, lookup_seq_lt by done. simpl.
  by rewrite list_lookup_fmap, lookup_seq_lt by done.
Qed.

Lemma table_ext {A : Type} (h w : nat) (f g : nat -> nat -> A) :
  (forall i j, i < h -> j < w -> f i j = g i j) ->
  table h w f = table h w g.
Proof.
  intros Hfg. unfold table. f_equal.
  apply list_fmap_ext. intros ? i [-> Hi]%lookup_seq.
  apply list_fmap_ext. intros ? j [-> Hj]%lookup_seq.
  apply Hfg; lia.
Qed.

Lemma table_shift {A : Type} (r h w : nat) (f : nat -> nat -> A) :
  mjoin ((fun i => (fun j => f i j) <$> seq 0 w) <$> seq r h)
  = table h w (fun i j => f (r + i) j).
Proof.
  unfold table. f_equal.
  rewrite <- (Nat.add_0_r r) at 1. rewrite <- fmap_add_seq, <- list_fmap_compose.
  done.
Qed.

Section table_data.
Variables (a : ndarray) (rows cols : nat) (f : nat -> nat -> Z).
Hypothesis Hshape : shape a = [rows; cols].
Hypothesis Hdata : data a = table rows cols f.

Lemma row_segment_table (i c w : nat) :
  i < rows -> c + w <= cols ->
  row_segment a cols i c w = (fun j => f i (c + j)) <$> seq 0 w.
Proof.
  intros Hi Hc. apply list_eq. intros j.
  destruct (decide (j < w)) as [Hj|Hj].
  - rewrite row_segment_lookup by (by eapply cellsz_matrix || done).
    rewrite Hdata. replace (i * cols + c + j) with (i * cols + (c + j)) by lia.
    rewrite table_lookup by lia.
    by rewrite list_lookup_fmap, lookup_seq_lt by done.
  - rewrite !lookup_ge_None_2; [done|..].
    + rewrite length_fmap, length_seq. lia.
    + unfold row_segment. rewrite (cellsz_matrix a rows cols) by done.
      rewrite length_take. lia.
Qed.

Lemma segments_table (r h c w : nat) (sh : list nat) :
  r + h <= rows -> c + w <= cols ->
  segments a cols r h c w sh
  = NDArray sh (table h w (fun i j => f (r + i) (c + j))).
Proof.
  intros Hr Hc. unfold segments. f_equal.
  rewrite <- (table_shift r h w (fun i j => f i (c + j))). f_equal.
  apply list_fmap_ext. intros ? i [-> Hi]%lookup_seq.
  apply row_segment_table; [lia|done].
Qed.
End table_data.

Lemma table_one_row {A : Type} (w : nat) (f : nat -> nat -> A) :
  table 1 w f = (fun j => f 0 j) <$> seq 0 w.
Proof. unfold table. simpl. apply app_nil_r. Qed.

Lemma table_one_column {A : Type} (h : nat) (f : nat -> nat -> A) :
  table h 1 f = (fun i => f i 0) <$> seq 0 h.
Proof. unfold table. simpl. apply join_singletons. Qed.

Lemma cells_matrix (s : Mem.store) (l : Mem.loc) (o h w s0 s1 : nat) :
  Mem.cells s (Mem.View l o [h; w] [s0; s1])
  = table h w (fun i j => nth (o + i * s0 + j * s1) (s l) 0%Z).
Proof.
  unfold Mem.cells, table. simpl. f_equal.
  apply list_fmap_ext. intros ? i _. apply join_singletons.
Qed.

Lemma cells_vector (s : Mem.store) (l : Mem.loc) (o w s1 : nat) :
  Mem.cells s (Mem.View l o [w] [s1])
  = (fun j => nth (o + j * s1) (s l) 0%Z) <$> seq 0 w.
Proof. unfold Mem.cells. simpl. apply join_singletons. Qed.

(** ** The operations on views *)

Lemma py_slice_bounds (start stop : Z) (d r h : nat) :
  py_slice start stop d = (r, h) -> r + h <= d.
Proof.
  unfold py_slice, clip_bound. intros [= <- <-]. lia.
Qed.

Lemma py_index_bound (i : Z) (d i' : nat) :
  py_index i d = Ok i' -> i' < d.
Proof.
  unfold py_index. case_bool_decide; [|done]. intros [= <-].
  destruct (Z.ltb_spec i 0); lia.
Qed.

Section view_operations.
Variables (s : Mem.store) (a : Mem.view) (rows cols s0 s1 : nat).
Hypothesis Hshape : Mem.vshape a = [rows; cols].
Hypothesis Hstrides : Mem.strides a = [s0; s1].

Let cell (i j : nat) : Z :=
  nth (Mem.offset a + i * s0 + j * s1) (s (Mem.base a)) 0%Z.

Lemma value_of_shape : shape (value_of s a) = [rows; cols].
Proof. done. Qed.

Lemma value_of_data : data (value_of s a) = table rows cols cell.
Proof.
  destruct a as [l o sh st]. simpl in *. subst sh st. apply cells_matrix.
Qed.

Lemma getitem_slice_slice_shown (r0 r1 c0 c1 : Z) :
  getitem_slice_slice (value_of s a) r0 r1 c0 c1
  = result_map (value_of s) (Mem.getitem_slice_slice a r0 r1 c0 c1).
Proof.
  unfold getitem_slice_slice, Mem.getitem_slice_slice.
  rewrite value_of_shape, Hshape, Hstrides.
  destruct (py_slice r0 r1 rows) as [r h] eqn:Hr.
  destruct (py_slice c0 c1 cols) as [c w] eqn:Hc.
  apply py_slice_bounds in Hr, Hc. simpl. f_equal.
  rewrite (segments_table _ rows cols cell)
    by (done || apply value_of_data).
  unfold value_of. simpl. rewrite cells_matrix. f_equal.
  apply table_ext. intros i j _ _. unfold cell. f_equal. lia.
Qed.

Lemma getitem_slice_slice_matrix_view (r0 r1 c0 c1 : Z) (a' : Mem.view) :
  Mem.getitem_slice_slice a r0 r1 c0 c1 = Ok a' -> matrix_view a'.
Proof.
  unfold Mem.getitem_slice_slice. rewrite Hshape, Hstrides.
  destruct (py_slice r0 r1 rows) as [r h], (py_slice c0 c1 cols) as [c w].
  by intros [= <-].
Qed.

Lemma getitem_int_all_shown (i : Z) :
  getitem_int_all (value_of s a) i
  = result_map (value_of s) (Mem.getitem_int_all a i).
Proof.
  unfold getitem_int_all, Mem.getitem_int_all.
  rewrite value_of_shape, Hshape, Hstrides.
  destruct (py_index i rows) as [i'|e] eqn:Hi; [|done].
  apply py_index_bound in Hi. simpl. f_equal.
  rewrite (segments_table _ rows cols cell)
    by (done || apply value_of_data || lia).
  unfold value_of. simpl. rewrite cells_vector, table_one_row. f_equal.
  apply list_fmap_ext. intros ? j _. unfold cell. f_equal. lia.
Qed.

Lemma getitem_slice_int_shown (r0 r1 j : Z) :
  getitem_slice_int (value_of s a) r0 r1 j
  = result_map (value_of s) (Mem.getitem_slice_int a r0 r1 j).
Proof.
  unfold getitem_slice_int, Mem.getitem_slice_int.
  rewrite value_of_shape, Hshape, Hstrides.
  destruct (py_slice r0 r1 rows) as [r h] eqn:Hr.
  apply py_slice_bounds in Hr.
  destruct (py_index j cols) as [j'|e] eqn:Hj; [|done].
  apply py_index_bound in Hj. simpl. f_equal.
  rewrite (segments_table _ rows cols cell)
    by (done || apply value_of_data || lia).
  unfold value_of. simpl. rewrite cells_vector, table_one_column. f_equal.
  apply list_fmap_ext. intros ? i _. unfold cell. f_equal. lia.
Qed.
End view_operations.

Lemma forallb_fmap {A B : Type} (p : B -> bool) (f : A -> B) (l : list A) :
  forallb p (f <$> l) = forallb (fun x => p (f x)) l.
Proof. induction l as [|x l IH]; csimpl; [done|]. by rewrite IH. Qed.

Lemma np_concatenate_shown (s : Mem.store) (arrays : list Mem.view) :
  Mem.np_concatenate arrays s = (np_concatenate (value_of s <$> arrays), s).
Proof.
  destruct arrays as [|a0 arrays]; [done|].
  unfold Mem.np_concatenate, np_concatenate.
  cbn [fmap list_fmap]. fold (value_of s <$> arrays).
  change (value_of s a0 :: (value_of s <$> arrays))
    with (value_of s <$> (a0 :: arrays)).
  rewrite forallb_fmap. unfold ndim. cbn [shape value_of].
  destruct (forallb _ (a0 :: arrays)); [|done].
  f_equal. f_equal. by rewrite <- !list_fmap_compose.
Qed.

Lemma matrix_view_inv (a : Mem.view) :
  matrix_view a ->
  exists rows cols s0 s1,
    Mem.vshape a = [rows; cols] /\ Mem.strides a = [s0; s1].
Proof.
  intros [Hsh Hst].
  destruct (Mem.vshape a) as [|rows [|cols [|? ?]]]; try done.
  destruct (Mem.strides a) as [|s0 [|s1 [|? ?]]]; try done.
  by exists rows, cols, s0, s1.
Qed.

(** The perimeter test through a view reads the store, returns what the
    test returns on the array the view shows, and leaves the store as it
    was. *)
Lemma is_sub_square_shown (s : Mem.store) (a : Mem.view) :
  matrix_view a ->
  Mem._is_sub_square a s = (_is_sub_square (value_of s a), s).
Proof.
  intros (rows & cols & s0 & s1 & Hsh & Hst)%matrix_view_inv.
  unfold _is_sub_square, Mem._is_sub_square.
  rewrite !(getitem_int_all_shown s a rows cols s0 s1) by done.
  rewrite !(getitem_slice_int_shown s a rows cols s0 s1) by done.
  unfold Mem.bind, Mem.lift, Mem.ret.
  destruct (Mem.getitem_int_all a 0) as [top|e]; [|done].
  destruct (Mem.getitem_int_all a (-1)) as [bottom|e]; [|done].
  destruct (Mem.getitem_slice_int a 1 (-1) 0) as [left|e]; [|done].
  destruct (Mem.getitem_slice_int a 1 (-1) (-1)) as [right|e]; [|done].
  cbn [result_map bind]. rewrite np_concatenate_shown.
  cbn [fmap list_fmap].
  by destruct (np_concatenate _) as [perimeter|e].
Qed.

(** ** The loops on views *)

Lemma gen_map_seq {A B : Type} (f : A -> B) (g k : generator A) :
  gen_map f (gen_seq g k) = gen_seq (gen_map f g) (gen_map f k).
Proof. induction g as [a rest IH| |e]; simpl; [by rewrite IH|done..]. Qed.

Lemma gen_map_for {A B C : Type} (f : B -> C) (l : list A)
    (body : A -> generator B) :
  gen_map f (gen_for l body) = gen_for l (fun x => gen_map f (body x)).
Proof.
  induction l as [|x l IH]; simpl; [done|]. by rewrite gen_map_seq, IH.
Qed.

Lemma gen_for_ext {A B : Type} (l : list A) (body body' : A -> generator B) :
  (forall x, body x = body' x) -> gen_for l body = gen_for l body'.
Proof.
  intros Hext. induction l as [|x l IH]; simpl; [done|]. by rewrite Hext, IH.
Qed.

Lemma gen_Forall_seq {A : Type} (P : A -> Prop) (g k : generator A) :
  gen_Forall P g -> gen_Forall P k -> gen_Forall P (gen_seq g k).
Proof.
  intros Hg Hk. induction g as [a rest IH| |e]; simpl in *; [|done..].
  destruct Hg as [Ha Hrest]. split; [done|]. by apply IH.
Qed.

Lemma gen_Forall_for {A B : Type} (P : B -> Prop) (l : list A)
    (body : A -> generator B) :
  (forall x, gen_Forall P (body x)) -> gen_Forall P (gen_for l body).
Proof.
  intros Hbody. induction l as [|x l IH]; simpl; [done|].
  by apply gen_Forall_seq.
Qed.

Section search_through_views.
Variables (s : Mem.store) (square : Mem.Square).
Hypothesis Hview : matrix_view (Mem.matrix square).

Lemma size_shown : size (square_value s square) = Mem.size square.
Proof. done. Qed.

Lemma get_rolling_windows_shown (sub_square_size : Z) :
  _get_rolling_windows (square_value s square) sub_square_size
  = gen_map (value_of s) (Mem._get_rolling_windows square sub_square_size).
Proof.
  destruct (matrix_view_inv _ Hview) as (rows & cols & s0 & s1 & Hsh & Hst).
  unfold _get_rolling_windows, Mem._get_rolling_windows. rewrite size_shown.
  destruct (Mem.size square) as [n|e]; [|done].
  destruct (_ || _); [done|].
  rewrite gen_map_for. apply gen_for_ext. intros start_row.
  rewrite gen_map_for. apply gen_for_ext. intros start_col.
  change (matrix (square_value s square))
    with (value_of s (Mem.matrix square)).
  rewrite (getitem_slice_slice_shown s _ rows cols s0 s1) by done.
  by destruct (Mem.getitem_slice_slice _ _ _ _ _).
Qed.

Lemma get_rolling_windows_matrix_views (sub_square_size : Z) :
  gen_Forall matrix_view (Mem._get_rolling_windows square sub_square_size).
Proof.
  destruct (matrix_view_inv _ Hview) as (rows & cols & s0 & s1 & Hsh & Hst).
  unfold Mem._get_rolling_windows.
  destruct (Mem.size square) as [n|e]; [|done].
  destruct (_ || _); [done|].
  apply gen_Forall_for. intros start_row.
  apply gen_Forall_for. intros start_col.
  destruct (Mem.getitem_slice_slice _ _ _ _ _) as [a'|e] eqn:Ha'; [|done].
  split; [|done].
  by eapply (getitem_slice_slice_matrix_view _ rows cols s0 s1).
Qed.
End search_through_views.

Lemma refines_for_gen (s : Mem.store) (size : Z) (g : generator Mem.view) :
  gen_Forall matrix_view g ->
  refines s
    (Mem.for_gen g (fun sub_square =>
       Mem.bind (Mem._is_sub_square sub_square) (fun ok : bool =>
         if ok then Mem.ret (Some (sub_square, size)) else Mem.ret None)))
    (shown_found s)
    (for_gen (gen_map (value_of s) g) (test_window size)).
Proof.
  induction g as [a rest IH| |e]; intros Hg;
    [|by eexists; split; [done|]..].
  destruct Hg as [Ha Hrest]. cbn [Mem.for_gen gen_map for_gen].
  unfold refines, Mem.bind at 1. unfold Mem.bind at 1.
  rewrite is_sub_square_shown by done. unfold test_window at 1.
  destruct (_is_sub_square (value_of s a)) as [[|]|e].
  - by eexists; split; [done|].
  - cbn [bind]. unfold Mem.ret at 1. by apply IH.
  - by eexists; split; [done|].
Qed.

Lemma refines_for_list {A R R' : Type} (s : Mem.store) (h : R -> R')
    (l : list A) (body_view : A -> Mem.state (option R))
    (body : A -> result (option R')) :
  (forall x, refines s (body_view x) (fmap h) (body x)) ->
  refines s (Mem.for_list l body_view) (fmap h) (for_list l body).
Proof.
  intros Hbody. induction l as [|x l IH]; [by eexists; split; [done|]|].
  cbn [Mem.for_list for_list]. unfold refines, Mem.bind.
  destruct (Hbody x) as (r & -> & <-).
  destruct r as [[v|]|e]; [by eexists; split; [done|] | | by eexists; split; [done|]].
  apply IH.
Qed.

(** The search through views returns, without changing the store, what
    the search on values returns for the array the grid shows. *)
Lemma find_largest_refines (s : Mem.store) (square : Mem.Square) :
  matrix_view (Mem.matrix square) ->
  exists r,
    Mem.find_largest_sub_square (Mem.PySquare square) s = (r, s) /\
    shown s r = find_largest_sub_square (PySquare (square_value s square)).
Proof.
  intros Hview. unfold Mem.find_largest_sub_square, find_largest_sub_square.
  rewrite (size_shown s square). unfold Mem.bind at 1, Mem.lift.
  destruct (Mem.size square) as [m|e]; [|by eexists; split; [done|]].
  cbn [bind]. unfold Mem.bind.
  destruct (refines_for_list s (fun p : Mem.view * Z => (value_of s p.1, p.2))
              (py_range m 0 (-1))
              (fun size =>
                 Mem.for_gen (Mem._get_rolling_windows square size)
                   (fun sub_square =>
                      Mem.bind (Mem._is_sub_square sub_square) (fun ok : bool =>
                        if ok then Mem.ret (Some (sub_square, size))
                        else Mem.ret None)))
              (fun size =>
                 for_gen (_get_rolling_windows (square_value s square) size)
                   (test_window size)))
    as (r & Hr & Hshown).
  { intros size. rewrite get_rolling_windows_shown by done.
    apply refines_for_gen. by apply get_rolling_windows_matrix_views. }
  unfold Mem.bind in Hr. rewrite Hr. unfold test_window in Hshown.
  rewrite <- Hshown.
  destruct r as [[[a k]|]|e]; by eexists; split; [done|].
Qed.

(** ** Determinism and the absence of side effects *)

(** C9: the search is deterministic and has no side effect. Called on a
    valid grid, it leaves every buffer of the store as it was, so the cells
    of the grid are unchanged; a second call on the same grid returns the
    same result, and a call on another grid with identical cells returns an
    identical result: the same sub-matrix and side, or the same failure. *)
Theorem find_largest_deterministic (s : Mem.store) (square square' : Mem.Square)
    (n : nat)
    (Hgrid : grid_in_store s square n)
    (Hgrid' : grid_in_store s square' n)
    (Hsame : value_of s (Mem.matrix square) = value_of s (Mem.matrix square')) :
  let '(r1, s1) := Mem.find_largest_sub_square (Mem.PySquare square) s in
  let '(r2, s2) := Mem.find_largest_sub_square (Mem.PySquare square) s1 in
  let '(r3, s3) := Mem.find_largest_sub_square (Mem.PySquare square') s2 in
  s1 = s /\ s2 = s /\ s3 = s /\
  Mem.cells s3 (Mem.matrix square) = Mem.cells s (Mem.matrix square) /\
  r2 = r1 /\
  shown s r3 = shown s r1.
Proof.
  destruct Hgrid as [Hview _], Hgrid' as [Hview' _].
  destruct (find_largest_refines s square Hview) as (r & Hr & Hshown).
  destruct (find_largest_refines s square' Hview') as (r' & Hr' & Hshown').
  rewrite Hr, Hr, Hr'. repeat split.
  rewrite Hshown, Hshown'. unfold square_value. by rewrite Hsame.
Qed.

Lemma grid_in_store_example (l : Mem.loc) :
  l <= 1 -> grid_in_store store_example (Mem.mkSquare (grid_view l)) 3.
Proof.
  intros Hl. destruct l as [|[|l]]; [..|lia]; by repeat split.
Defined.

Lemma find_largest_deterministic_witness :
  let '(r1, s1) := Mem.find_largest_sub_square
                     (Mem.PySquare (Mem.mkSquare (grid_view 0))) store_example in
  let '(r2, s2) := Mem.find_largest_sub_square
                     (Mem.PySquare (Mem.mkSquare (grid_view 0))) s1 in
  let '(r3, s3) := Mem.find_largest_sub_square
                     (Mem.PySquare (Mem.mkSquare (grid_view 1))) s2 in
  s1 = store_example /\ s2 = store_example /\ s3 = store_example /\
  Mem.cells s3 (Mem.matrix (Mem.mkSquare (grid_view 0)))
    = Mem.cells store_example (Mem.matrix (Mem.mkSquare (grid_view 0))) /\
  r2 = r1 /\
  shown store_example r3 = shown store_example r1.
Proof.
  apply (find_largest_deterministic store_example
           (Mem.mkSquare (grid_view 0)) (Mem.mkSquare (grid_view 1)) 3).
  - apply grid_in_store_example. lia.
  - apply grid_in_store_example. lia.
  - reflexivity.
Defined.

(** * Writing into arrays and planting a sub-square *)

Example generate_example :
  generate_square_with_one_valid_sub_square draws_example 4 2
  = Ok (mkSquare (NDArray [4; 4] [0; 0; 0; 0;
                                  0; 0; 1; 1;
                                  0; 0; 1; 1;
                                  0; 0; 0; 0]%Z)) /\
  generate_square_with_one_valid_sub_square draws_example 4 4
  = Ok (mkSquare (NDArray [4; 4] [1; 1; 1; 1;
                                  1; 0; 0; 1;
                                  1; 0; 0; 1;
                                  1; 1; 1; 1]%Z)).
Proof. by split. Qed.

(** ** Assignments to blocks of cells *)

Lemma fill_shape (a : ndarray) (cols r h c w : nat) (v : Z) :
  shape (fill a cols r h c w v) = shape a.
Proof. done. Qed.

Lemma fill_wf (a : ndarray) (cols r h c w : nat) (v : Z) :
  wf_ndarray a -> wf_ndarray (fill a cols r h c w v).
Proof. unfold wf_ndarray, fill. simpl. by rewrite length_imap. Qed.

Lemma fill_Forall (P : Z -> Prop) (a : ndarray) (cols r h c w : nat) (v : Z) :
  Forall P (data a) -> P v -> Forall P (data (fill a cols r h c w v)).
Proof.
  intros Ha Hv. apply Forall_lookup. intros idx x. unfold fill. simpl.
  rewrite list_lookup_imap. destruct (data a !! idx) as [y|] eqn:Hy; [|done].
  simpl. intros [= <-]. case_bool_decide; [done|].
  by eapply Forall_lookup_1.
Qed.

Lemma fill_item (a : ndarray) (rows cols r h c w i j : nat) (v : Z) :
  shape a = [rows; cols] -> wf_ndarray a -> i < rows -> j < cols ->
  item (fill a cols r h c w v) i j
  = if bool_decide (r <= i < r + h /\ c <= j < c + w) then Some v
    else item a i j.
Proof.
  intros Hs Hwf Hi Hj.
  destruct (item_is_Some a rows cols i j Hs Hwf Hi Hj) as [x Hx].
  rewrite Hx. unfold item in *. rewrite fill_shape, Hs in *.
  rewrite bool_decide_eq_true_2 in * by done.
  unfold fill. simpl. rewrite list_lookup_imap, Hx. simpl.
  rewrite (cellsz_matrix a rows cols) by done. rewrite Nat.div_1_r.
  replace ((i * cols + j) `div` cols) with i
    by (apply (Nat.div_unique _ _ _ j); lia).
  replace ((i * cols + j) `mod` cols) with j
    by (apply (Nat.mod_unique _ _ i); lia).
  by repeat case_bool_decide.
Qed.

(** ** A placement qualifies when its border is all ones *)

Lemma qualifies_border (square : Square) (n k row col : nat) :
  shape (matrix square) = [n; n] -> wf_ndarray (matrix square) ->
  placement n k row col ->
  qualifies square k row col = true <->
  forall i j, on_border k row col i j -> item (matrix square) i j = Some 1%Z.
Proof.
  intros Hs Hwf (Hk & Hrow & Hcol).
  rewrite (qualifies_inside square n) by done. unfold passes.
  destruct (is_sub_square_matrix (segments (matrix square) n row k col k [k; k]) k k)
    as (b & -> & Hiff);
    [done | apply (segments_wf _ n n); [done | done | lia | lia | simpl; lia]
    | lia | lia |].
  assert (forall i j, i < k -> j < k ->
            item (segments (matrix square) n row k col k [k; k]) i j
            = item (matrix square) (row + i) (col + j)) as Hitem
    by (intros; apply (segments_item _ n n); (done || lia)).
  split.
  - intros [= Hb]. apply Hiff in Hb as [Hrows Hcols].
    intros i j ([Hi1 Hi2] & [Hj1 Hj2] & Hedge).
    replace i with (row + (i - row)) by lia.
    replace j with (col + (j - col)) by lia.
    rewrite <- Hitem by lia.
    destruct (decide (i = row)) as [->|Hne1].
    { replace (row - row) with 0 by lia. apply Hrows. lia. }
    destruct (decide (i = row + k - 1)) as [->|Hne2].
    { replace (row + k - 1 - row) with (k - 1) by lia. apply Hrows. lia. }
    destruct (decide (j = col)) as [->|Hne3].
    { replace (col - col) with 0 by lia. apply Hcols. lia. }
    assert (j = col + k - 1) as -> by lia.
    replace (col + k - 1 - col) with (k - 1) by lia. apply Hcols. lia.
  - intros Hborder. f_equal. apply Hiff. split.
    + intros j Hj. rewrite !Hitem by lia. unfold on_border in Hborder.
      split; apply Hborder; lia.
    + intros i Hi. rewrite !Hitem by lia. unfold on_border in Hborder.
      split; apply Hborder; lia.
Qed.

(** ** The planted border *)

Section planted_border.
Variables (a : ndarray) (n k row col : nat).
Hypothesis Hshape : shape a = [n; n].
Hypothesis Hwf : wf_ndarray a.
Hypothesis Hplace : placement n k row col.

Lemma with_border_shape : shape (with_border a n k row col) = [n; n].
Proof. done. Qed.

Lemma with_border_wf : wf_ndarray (with_border a n k row col).
Proof. unfold with_border. by repeat apply fill_wf. Qed.

Lemma with_border_item (i j : nat) :
  i < n -> j < n ->
  (on_border k row col i j ->
   item (with_border a n k row col) i j = Some 1%Z) /\
  (~ on_border k row col i j ->
   item (with_border a n k row col) i j = item a i j).
Proof.
  intros Hi Hj. destruct Hplace as (Hk & Hrow & Hcol).
  unfold with_border.
  rewrite !(fill_item _ n n) by (done || by repeat apply fill_wf).
  unfold on_border. split; intros Hb; repeat case_bool_decide; (done || lia).
Qed.

Lemma with_border_binary :
  Forall (fun x => (0 <= x < 2)%Z) (data a) ->
  np_all_isin (with_border a n k row col) [0%Z; 1%Z] = true.
Proof.
  intros Hbin. unfold np_all_isin.
  apply Is_true_true, forallb_True.
  assert (Forall (fun x => (0 <= x < 2)%Z) (data (with_border a n k row col)))
    as Hall by (unfold with_border; repeat apply fill_Forall; (done || lia)).
  eapply Forall_impl; [exact Hall|]. intros x Hx. simpl in *.
  destruct (Z.eqb_spec x 0); [done|].
  destruct (Z.eqb_spec x 1); [done|]. exfalso. lia.
Qed.

Lemma with_border_valid :
  Forall (fun x => (0 <= x < 2)%Z) (data a) ->
  Square_new (PyNdarray (with_border a n k row col))
    = Ok (mkSquare (with_border a n k row col)) /\
  valid_grid (mkSquare (with_border a n k row col)) n.
Proof.
  intros Hbin.
  assert (Square_new (PyNdarray (with_border a n k row col))
          = Ok (mkSquare (with_border a n k row col))) as Hnew.
  { unfold Square_new, _valid_matrix, ndim.
    rewrite with_border_shape. simpl. rewrite Nat.eqb_refl. simpl.
    by rewrite with_border_binary. }
  split; [done|]. split; [apply with_border_wf|]. split; [done|].
  unfold size. simpl. by rewrite Hshape.
Qed.

Lemma with_border_qualifies :
  qualifies (mkSquare (with_border a n k row col)) k row col = true.
Proof.
  apply (qualifies_border _ n); [done | apply with_border_wf | done |].
  intros i j Hb. pose proof Hb as ([? ?] & [? ?] & _).
  destruct Hplace as (Hk & Hrow & Hcol).
  by apply with_border_item; [lia | lia |].
Qed.
End planted_border.

Lemma setitem_int_all_matrix (a : ndarray) (rows cols : nat) (v i : Z) (i' : nat) :
  shape a = [rows; cols] -> py_index i rows = Ok i' ->
  setitem_int_all a i v = Ok (fill a cols i' 1 0 cols v).
Proof. intros Hs Hi. unfold setitem_int_all. by rewrite Hs, Hi. Qed.

Lemma setitem_all_int_matrix (a : ndarray) (rows cols : nat) (v j : Z) (j' : nat) :
  shape a = [rows; cols] -> py_index j cols = Ok j' ->
  setitem_all_int a j v = Ok (fill a cols 0 rows j' 1 v).
Proof. intros Hs Hj. unfold setitem_all_int. by rewrite Hs, Hj. Qed.

Lemma setitem_int_slice_matrix (a : ndarray) (rows cols : nat) (v : Z) (i c w : nat) :
  shape a = [rows; cols] -> i < rows -> c + w <= cols ->
  setitem_int_slice a (Z.of_nat i) (Z.of_nat c) (Z.of_nat c + Z.of_nat w) v
  = Ok (fill a cols i 1 c w v).
Proof.
  intros Hs Hi Hc. unfold setitem_int_slice.
  by rewrite Hs, py_index_nonneg, py_slice_inside.
Qed.

Lemma setitem_slice_int_matrix (a : ndarray) (rows cols : nat) (v : Z) (r h j : nat) :
  shape a = [rows; cols] -> r + h <= rows -> j < cols ->
  setitem_slice_int a (Z.of_nat r) (Z.of_nat r + Z.of_nat h) (Z.of_nat j) v
  = Ok (fill a cols r h j 1 v).
Proof.
  intros Hs Hr Hj. unfold setitem_slice_int.
  by rewrite Hs, py_index_nonneg, py_slice_inside.
Qed.

Lemma generate_value (rnd : draws) (n k : nat) :
  2 <= k <= n -> draws_for rnd n k ->
  generate_square_with_one_valid_sub_square rnd (Z.of_nat n) (Z.of_nat k)
  = Ok (mkSquare (with_border (drawn_matrix rnd) n k
                    (generated_anchor rnd n k).1 (generated_anchor rnd n k).2)) /\
  placement n k (generated_anchor rnd n k).1 (generated_anchor rnd n k).2.
Proof.
  intros Hk (Hs & Hwf & Hbin & Hrow & Hcol).
  unfold generate_square_with_one_valid_sub_square, generated_anchor.
  destruct (Z.gtb_spec (Z.of_nat k) (Z.of_nat n)); [lia|].
  destruct (Z.ltb_spec (Z.of_nat k) 2); [lia|]. cbn [orb].
  destruct (Z.eqb_spec (Z.of_nat k) (Z.of_nat n)) as [Heq|Hne].
  - assert (k = n) as -> by lia. rewrite decide_True by done. cbn [fst snd].
    assert (placement n n 0 0) as Hplace by (unfold placement; lia).
    split; [|done].
    rewrite (setitem_int_all_matrix _ n n 1%Z 0%Z 0)
      by (exact Hs || (apply py_index_first; lia)).
    cbn [bind].
    rewrite (setitem_int_all_matrix _ n n 1%Z (-1)%Z (n - 1))
      by (exact Hs || (apply py_index_last; lia)).
    cbn [bind].
    rewrite (setitem_all_int_matrix _ n n 1%Z 0%Z 0)
      by (exact Hs || (apply py_index_first; lia)).
    cbn [bind].
    rewrite (setitem_all_int_matrix _ n n 1%Z (-1)%Z (n - 1))
      by (exact Hs || (apply py_index_last; lia)).
    cbn [bind].
    apply (with_border_valid _ n n 0 0); done.
  - rewrite decide_False by lia. cbn [fst snd].
    set (r := Z.to_nat (drawn_row rnd)). set (c := Z.to_nat (drawn_col rnd)).
    assert (placement n k r c) as Hplace by (unfold placement; lia).
    split; [|done].
    replace (drawn_row rnd) with (Z.of_nat r) by lia.
    replace (drawn_col rnd) with (Z.of_nat c) by lia.
    replace (Z.of_nat r + Z.of_nat k - 1)%Z with (Z.of_nat (r + k - 1)) by lia.
    replace (Z.of_nat c + Z.of_nat k - 1)%Z with (Z.of_nat (c + k - 1)) by lia.
    rewrite (setitem_int_slice_matrix _ n n 1%Z) by (exact Hs || lia).
    cbn [bind].
    rewrite (setitem_int_slice_matrix _ n n 1%Z) by (exact Hs || lia).
    cbn [bind].
    rewrite (setitem_slice_int_matrix _ n n 1%Z) by (exact Hs || lia).
    cbn [bind].
    rewrite (setitem_slice_int_matrix _ n n 1%Z) by (exact Hs || lia).
    cbn [bind].
    apply (with_border_valid _ n k r c); done.
Qed.

(** * Further properties of the code *)

(** ** The constructor *)

Lemma binary_np_all_isin (a : ndarray) :
  Forall (fun x => x = 0%Z \/ x = 1%Z) (data a) ->
  np_all_isin a [0%Z; 1%Z] = true.
Proof.
  intros Hbin. unfold np_all_isin. apply Is_true_true, forallb_True.
  eapply Forall_impl; [exact Hbin|]. intros x [-> | ->]; done.
Qed.

(** X1: the constructor accepts exactly the 2-dimensional square arrays
    whose elements are all 0 or 1, and the [Square] it returns holds the
    array it was given, unchanged. *)
Theorem square_new_accepts_exactly (m : pyobj) (square : Square) :
  Square_new m = Ok square <->
  exists a n,
    m = PyNdarray a /\ square = mkSquare a /\ shape a = [n; n] /\
    Forall (fun x => x = 0%Z \/ x = 1%Z) (data a).
Proof.
  split.
  - unfold Square_new.
    destruct (_valid_matrix m) as [[]|e] eqn:Hv; [|done]. cbn [bind].
    destruct m as [| z | l | a | s]; try done.
    intros [= <-]. apply valid_matrix_inv in Hv as (n & Hs & Hbin).
    by exists a, n.
  - intros (a & n & -> & -> & Hs & Hbin).
    unfold Square_new, _valid_matrix, ndim. rewrite Hs. simpl.
    rewrite Nat.eqb_refl. simpl. by rewrite binary_np_all_isin.
Qed.

(** ** The perimeter test on other inputs *)

(** X2: the perimeter test raises [IndexError] on an array with fewer than
    two axes, and on an array whose first or second axis is empty. *)
Theorem is_sub_square_degenerate (a : ndarray)
    (Hdegenerate : ndim a < 2 \/
                   exists rows cols rest,
                     shape a = rows :: cols :: rest /\ (rows = 0 \/ cols = 0)) :
  _is_sub_square a = Raise IndexError.
Proof.
  unfold _is_sub_square, getitem_int_all, getitem_slice_int.
  destruct Hdegenerate as [Hdim | (rows & cols & rest & Hs & Hzero)].
  - unfold ndim in Hdim. revert Hdim.
    destruct (shape a) as [|rows [|cols rest]];
      [reflexivity | reflexivity | simpl; lia].
  - rewrite Hs. destruct Hzero as [-> | ->]; [done|].
    destruct rows as [|rows]; [done|].
    rewrite py_index_first, py_index_last by lia. done.
Qed.

Lemma is_sub_square_degenerate_witness :
  _is_sub_square (zeros [0; 0]) = Raise IndexError /\
  _is_sub_square (zeros [3]) = Raise IndexError.
Proof.
  split.
  - apply (is_sub_square_degenerate (zeros [0; 0])).
    right. exists 0, 0, []. split; [reflexivity | left; reflexivity].
  - apply (is_sub_square_degenerate (zeros [3])).
    left. unfold ndim, zeros. simpl. lia.
Defined.

(** X3: the perimeter test reads the border only. Two matrices of the same
    shape, with at least one row and one column, that agree on their first
    and last rows and on their first and last columns get the same answer,
    whatever their interiors hold; the matrices need not be square. *)
Theorem is_sub_square_ignores_interior (a a' : ndarray) (rows cols : nat)
    (Hrows : 0 < rows) (Hcols : 0 < cols)
    (Hshape : shape a = [rows; cols]) (Hwf : wf_ndarray a)
    (Hshape' : shape a' = [rows; cols]) (Hwf' : wf_ndarray a')
    (Hsame : forall i j, i < rows -> j < cols ->
               i = 0 \/ i = rows - 1 \/ j = 0 \/ j = cols - 1 ->
               item a i j = item a' i j) :
  _is_sub_square a = _is_sub_square a'.
Proof.
  destruct (is_sub_square_matrix a rows cols) as (b & -> & Hb); [done..|].
  destruct (is_sub_square_matrix a' rows cols) as (b' & -> & Hb'); [done..|].
  f_equal. apply eq_true_iff_eq. rewrite Hb, Hb'.
  split; intros [Hr Hc]; (split; [intros j Hj | intros i Hi]).
  - rewrite <- !Hsame by lia. by apply Hr.
  - rewrite <- !Hsame by lia. by apply Hc.
  - rewrite !Hsame by lia. by apply Hr.
  - rewrite !Hsame by lia. by apply Hc.
Qed.

Lemma is_sub_square_ignores_interior_witness :
  _is_sub_square (NDArray [3; 3] [1; 1; 1; 1; 0; 1; 1; 1; 1]%Z)
  = _is_sub_square (NDArray [3; 3] [1; 1; 1; 1; 1; 1; 1; 1; 1]%Z).
Proof.
  apply (is_sub_square_ignores_interior _ _ 3 3);
    [lia | lia | reflexivity | reflexivity | reflexivity | reflexivity |].
  intros i j Hi Hj Hedge.
  destruct i as [|[|[|i]]]; [| | |lia];
    (destruct j as [|[|[|j]]]; [| | |lia]); (reflexivity || lia).
Defined.

(** ** The search on valid grids *)

(** X4: a placement qualifies, that is its window passes the perimeter
    test, exactly when every cell of the grid on the border of the
    placement is 1. *)
Theorem placement_qualifies_iff_border (square : Square) (n k row col : nat)
    (Hvalid : valid_grid square n)
    (Hplace : placement n k row col) :
  qualifies square k row col = true <->
  forall i j, on_border k row col i j -> item (matrix square) i j = Some 1%Z.
Proof.
  pose proof (valid_grid_inv _ _ Hvalid) as (Hs & _ & _).
  destruct Hvalid as (Hwf & _). by apply (qualifies_border square n).
Qed.

Lemma placement_qualifies_iff_border_witness :
  qualifies (mkSquare grid_example) 2 0 1 = true <->
  forall i j, on_border 2 0 1 i j ->
    item (matrix (mkSquare grid_example)) i j = Some 1%Z.
Proof.
  apply (placement_qualifies_iff_border (mkSquare grid_example) 3 2 0 1).
  - exact grid_example_valid.
  - unfold placement. lia.
Defined.

(** X5: whatever the search returns on a valid grid of side [n] is a
    sub-square of the grid: the side [k] is between 1 and [n], the matrix is
    [k] by [k], its cells are the cells of the grid from some anchor on, and
    the cells on its border are all 1. *)
Theorem find_largest_result_sound (square : Square) (n : nat) (w : ndarray)
    (size : Z)
    (Hvalid : valid_grid square n)
    (Hres : find_largest_sub_square (PySquare square) = Ok (w, size)) :
  exists k row col,
    size = Z.of_nat k /\ placement n k row col /\
    shape w = [k; k] /\ wf_ndarray w /\
    (forall i j, i < k -> j < k ->
       item w i j = item (matrix square) (row + i) (col + j)) /\
    (forall i j, on_border k 0 0 i j -> item w i j = Some 1%Z).
Proof.
  pose proof (valid_grid_inv _ _ Hvalid) as (Hs & _ & _).
  pose proof Hvalid as (Hwf & _).
  destruct (find_largest_spec square n Hvalid)
    as [(k & row & col & w' & Hres' & Hk & Hrow & Hcol & Hw & Hq & _)
       | [Hres' _]]; [|congruence].
  rewrite Hres' in Hres. injection Hres as -> <-.
  rewrite (window_inside square n) in Hw by done. injection Hw as <-.
  assert (forall i j, i < k -> j < k ->
            item (segments (matrix square) n row k col k [k; k]) i j
            = item (matrix square) (row + i) (col + j)) as Hitem
    by (intros; apply (segments_item _ n n); (done || lia)).
  exists k, row, col. split; [done|]. split; [done|]. split; [done|].
  split; [apply (segments_wf _ n n); [done | done | lia | lia | simpl; lia]|].
  split; [done|].
  intros i j Hb. pose proof Hb as ([_ Hi] & [_ Hj] & Hedge).
  rewrite Hitem by lia.
  apply (qualifies_border square n k row col); [done | done | done | done |].
  unfold on_border in *. lia.
Qed.

Lemma find_largest_result_sound_witness :
  exists k row col,
    2%Z = Z.of_nat k /\ placement 3 k row col /\
    shape (NDArray [2; 2] [1; 1; 1; 1]%Z) = [k; k] /\
    wf_ndarray (NDArray [2; 2] [1; 1; 1; 1]%Z) /\
    (forall i j, i < k -> j < k ->
       item (NDArray [2; 2] [1; 1; 1; 1]%Z) i j
       = item (matrix (mkSquare grid_example)) (row + i) (col + j)) /\
    (forall i j, on_border k 0 0 i j ->
       item (NDArray [2; 2] [1; 1; 1; 1]%Z) i j = Some 1%Z).
Proof.
  apply (find_largest_result_sound (mkSquare grid_example) 3).
  - exact grid_example_valid.
  - reflexivity.
Defined.

(** X6: on a valid grid the search raises nothing but the not-found error,
    and that error carries the matrix of the grid; no [TypeError],
    [ValueError] or [IndexError] comes out of the generator or of the
    perimeter test. *)
Theorem find_largest_only_not_found (square : Square) (n : nat) (e : exn)
    (Hvalid : valid_grid square n)
    (Hres : find_largest_sub_square (PySquare square) = Raise e) :
  e = SubSquareDNEError (matrix square).
Proof.
  destruct (find_largest_spec square n Hvalid)
    as [(k & row & col & w & Hres' & _) | [Hres' _]]; congruence.
Qed.

Lemma find_largest_only_not_found_witness :
  SubSquareDNEError (zeros [3; 3])
  = SubSquareDNEError (matrix (mkSquare (zeros [3; 3]))).
Proof.
  apply (find_largest_only_not_found (mkSquare (zeros [3; 3])) 3).
  - exact zeros_valid.
  - reflexivity.
Defined.

Lemma segments_whole (a : ndarray) (n : nat) :
  shape a = [n; n] -> wf_ndarray a -> segments a n 0 n 0 n [n; n] = a.
Proof.
  intros Hs Hwf. destruct a as [sh d]. simpl in Hs. subst sh.
  unfold segments. f_equal. apply list_eq. intros idx.
  set (a := NDArray [n; n] d) in *.
  change (mjoin _) with (data (segments a n 0 n 0 n [n; n])).
  destruct (decide (idx < n * n)) as [Hidx|Hidx].
  - assert (0 < n) as Hn by nia.
    pose proof (Nat.div_mod_eq idx n) as Hdm.
    pose proof (Nat.mod_upper_bound idx n ltac:(lia)) as Hmod.
    assert (idx `div` n < n) as Hdiv by (apply Nat.Div0.div_lt_upper_bound; lia).
    replace idx with (idx `div` n * n + idx `mod` n) at 1 by lia.
    rewrite (segments_data_lookup a n n) by (done || lia).
    simpl. f_equal. lia.
  - rewrite !lookup_ge_None_2; [done|..].
    + pose proof (wf_matrix_length a n n eq_refl Hwf) as Hlen.
      subst a. simpl in Hlen. lia.
    + pose proof (segments_wf a n n eq_refl Hwf 0 n 0 n ltac:(lia) ltac:(lia)
                    [n; n] ltac:(simpl; lia)) as Hlen.
      unfold wf_ndarray in Hlen. rewrite Hlen. simpl. lia.
Qed.

(** X7: on a valid grid of side [n >= 1] the search returns the whole grid
    with side [n] exactly when every cell on the border of the grid is 1. *)
Theorem find_largest_whole_grid (square : Square) (n : nat)
    (Hvalid : valid_grid square n) (Hn : 1 <= n) :
  find_largest_sub_square (PySquare square) = Ok (matrix square, Z.of_nat n) <->
  forall i j, on_border n 0 0 i j -> item (matrix square) i j = Some 1%Z.
Proof.
  pose proof (valid_grid_inv _ _ Hvalid) as (Hs & _ & _).
  pose proof Hvalid as (Hwf & _).
  assert (placement n n 0 0) as Hplace by (unfold placement; lia).
  rewrite <- (qualifies_border square n n 0 0) by done.
  destruct (find_largest_spec square n Hvalid)
    as [(k & row & col & w & Hres & Hk & Hrow & Hcol & Hw & Hq & Hlarger & _)
       | [Hres Hnone]].
  - rewrite Hres. split.
    + intros [= -> Hkn]. assert (k = n) as -> by lia.
      by replace row with 0 in Hq by lia; replace col with 0 in Hq by lia.
    + intros Hq0. destruct (decide (k < n)) as [Hlt|Hge].
      { rewrite (Hlarger n 0 0) in Hq0 by lia. done. }
      assert (k = n) as -> by lia.
      replace row with 0 in Hw by lia. replace col with 0 in Hw by lia.
      rewrite (window_inside square n) in Hw by (done || lia).
      rewrite segments_whole in Hw by done. by injection Hw as <-.
  - rewrite Hres, (Hnone n 0 0) by lia. done.
Qed.

Lemma find_largest_whole_grid_witness :
  find_largest_sub_square (PySquare (mkSquare grid_example))
    = Ok (matrix (mkSquare grid_example), Z.of_nat 3) <->
  forall i j, on_border 3 0 0 i j ->
    item (matrix (mkSquare grid_example)) i j = Some 1%Z.
Proof.
  apply (find_largest_whole_grid (mkSquare grid_example) 3).
  - exact grid_example_valid.
  - lia.
Defined.

(** X8: turning cells of a grid from 0 to 1 never makes the search find
    less. For two valid grids of the same side, the second with a 1 in
    every cell where the first has one, a success on the first grid with
    side [size] gives a success on the second with a side at least
    [size]. *)
Theorem find_largest_monotone (square square' : Square) (n : nat)
    (w : ndarray) (size : Z)
    (Hvalid : valid_grid square n) (Hvalid' : valid_grid square' n)
    (Hmore : forall i j, item (matrix square) i j = Some 1%Z ->
                         item (matrix square') i j = Some 1%Z)
    (Hres : find_largest_sub_square (PySquare square) = Ok (w, size)) :
  exists w' size',
    find_largest_sub_square (PySquare square') = Ok (w', size') /\
    (size <= size')%Z.
Proof.
  pose proof (valid_grid_inv _ _ Hvalid) as (Hs & _ & _).
  pose proof (valid_grid_inv _ _ Hvalid') as (Hs' & _ & _).
  pose proof Hvalid as (Hwf & _). pose proof Hvalid' as (Hwf' & _).
  destruct (find_largest_spec square n Hvalid)
    as [(k & row & col & w0 & Hres0 & Hk & Hrow & Hcol & _ & Hq & _)
       | [Hres0 _]]; [|congruence].
  rewrite Hres0 in Hres. injection Hres as -> <-.
  assert (placement n k row col) as Hplace by done.
  assert (qualifies square' k row col = true) as Hq'.
  { apply (qualifies_border square' n); [done..|].
    intros i j Hb. apply Hmore.
    by apply (qualifies_border square n k row col). }
  destruct (find_largest_spec square' n Hvalid')
    as [(k' & row' & col' & w' & Hres' & _ & _ & _ & _ & _ & Hlarger & _)
       | [_ Hnone]].
  - exists w', (Z.of_nat k'). split; [done|].
    destruct (decide (k' < k)) as [Hlt|]; [|lia].
    rewrite (Hlarger k row col) in Hq' by (done || lia). done.
  - rewrite Hnone in Hq' by done. done.
Qed.

Lemma find_largest_monotone_witness :
  exists w' size',
    find_largest_sub_square
      (PySquare (mkSquare (NDArray [3; 3] [1; 1; 1; 1; 1; 1; 1; 1; 1]%Z)))
    = Ok (w', size') /\
    (2 <= size')%Z.
Proof.
  apply (find_largest_monotone (mkSquare grid_example)
           (mkSquare (NDArray [3; 3] [1; 1; 1; 1; 1; 1; 1; 1; 1]%Z)) 3
           (NDArray [2; 2] [1; 1; 1; 1]%Z)).
  - exact grid_example_valid.
  - repeat split; reflexivity.
  - intros i j H. unfold item in *. simpl in *.
    case_bool_decide; [|discriminate H].
    destruct i as [|[|[|i]]]; [| | |lia];
      (destruct j as [|[|[|j]]]; [| | |lia]); reflexivity.
  - reflexivity.
Defined.

(** ** The generator at the extreme sizes *)

(** X9: for the side [n] of a valid grid of side [n >= 1] the generator
    yields one window, the matrix of the grid itself, and stops. *)
Theorem get_rolling_windows_full_size (square : Square) (n : nat)
    (Hvalid : valid_grid square n) (Hn : 1 <= n) :
  _get_rolling_windows square (Z.of_nat n) = GYield (matrix square) GStop.
Proof.
  pose proof (valid_grid_inv _ _ Hvalid) as (Hs & _ & _).
  pose proof Hvalid as (Hwf & _).
  rewrite (get_rolling_windows_valid square n) by (done || lia).
  unfold windows_list. replace (n - n + 1) with 1 by lia. simpl.
  by rewrite segments_whole.
Qed.

Lemma get_rolling_windows_full_size_witness :
  _get_rolling_windows (mkSquare grid_example) (Z.of_nat 3)
  = GYield (matrix (mkSquare grid_example)) GStop.
Proof.
  apply (get_rolling_windows_full_size (mkSquare grid_example) 3).
  - exact grid_example_valid.
  - lia.
Defined.

(** X10: for the side 1 the generator of a valid grid of side [n >= 1]
    yields the cells of the grid one by one in storage order: every window
    is 1 by 1, and the scalars of the windows, put end to end, are the
    scalars of the grid. *)
Theorem get_rolling_windows_unit_size (square : Square) (n : nat)
    (Hvalid : valid_grid square n) (Hn : 1 <= n) :
  exists ws,
    _get_rolling_windows square 1 = gen_of_list ws /\
    Forall (fun w => shape w = [1; 1]) ws /\
    mjoin (data <$> ws) = data (matrix square).
Proof.
  pose proof (valid_grid_inv _ _ Hvalid) as (Hs & Hlen & _).
  pose proof Hvalid as (Hwf & _).
  exists (windows_list (matrix square) n 1).
  split; [apply (get_rolling_windows_valid square n 1); (done || lia)|].
  split.
  { apply Forall_lookup. intros idx w Hw.
    by apply windows_list_lookup_inv in Hw as (row & col & _ & _ & _ & ->). }
  assert (Forall (fun l : list Z => length l = 1)
            (data <$> windows_list (matrix square) n 1)) as Hone.
  { apply Forall_fmap, Forall_lookup. intros idx w Hw. simpl.
    apply windows_list_lookup_inv in Hw as (row & col & Hrow & Hcol & _ & ->).
    pose proof (segments_wf (matrix square) n n Hs Hwf row 1 col 1
                  ltac:(lia) ltac:(lia) [1; 1] eq_refl) as Hw.
    exact Hw. }
  apply list_eq. intros idx.
  destruct (decide (idx < n * n)) as [Hidx|Hidx].
  - pose proof (Nat.div_mod_eq idx n) as Hdm.
    pose proof (Nat.mod_upper_bound idx n ltac:(lia)) as Hmod.
    assert (idx `div` n < n) as Hdiv by (apply Nat.Div0.div_lt_upper_bound; lia).
    replace idx with (idx * 1 + 0) at 1 by lia.
    rewrite (lookup_join_same_length 1) by (done || lia).
    rewrite list_lookup_fmap.
    pose proof (windows_list_lookup (matrix square) n 1 (idx `div` n)
                  (idx `mod` n) ltac:(lia) ltac:(lia)) as Hw.
    replace (n - 1 + 1) with n in Hw by lia.
    replace (idx `div` n * n + idx `mod` n) with idx in Hw by lia.
    rewrite Hw. cbn [fmap option_fmap option_map mbind option_bind].
    pose proof (segments_data_lookup (matrix square) n n Hs Hwf
                  (idx `div` n) 1 (idx `mod` n) 1 ltac:(lia) ltac:(lia)
                  0 0 [1; 1] ltac:(lia) ltac:(lia)) as Hd.
    change (0 * 1 + 0) with 0 in Hd. rewrite Hd. f_equal. lia.
  - rewrite !lookup_ge_None_2; [done | lia |].
    rewrite (length_join_same_length 1) by done.
    rewrite length_fmap, windows_list_length. lia.
Qed.

Lemma get_rolling_windows_unit_size_witness :
  exists ws,
    _get_rolling_windows (mkSquare grid_example) 1 = gen_of_list ws /\
    Forall (fun w => shape w = [1; 1]) ws /\
    mjoin (data <$> ws) = data (matrix (mkSquare grid_example)).
Proof.
  apply (get_rolling_windows_unit_size (mkSquare grid_example) 3).
  - exact grid_example_valid.
  - lia.
Defined.

(** ** The generator of test grids *)

(** X11: the generator of test grids refuses a sub-square side greater than
    the side of the grid, or smaller than 2, with [ValueError], before any
    random number is used. *)
Theorem generate_invalid_sizes (rnd rnd' : draws) (square_size sub_square_size : Z)
    (Hsize : (sub_square_size > square_size)%Z \/ (sub_square_size < 2)%Z) :
  generate_square_with_one_valid_sub_square rnd square_size sub_square_size
    = Raise ValueError /\
  generate_square_with_one_valid_sub_square rnd square_size sub_square_size
    = generate_square_with_one_valid_sub_square rnd' square_size sub_square_size.
Proof.
  unfold generate_square_with_one_valid_sub_square.
  destruct (Z.gtb_spec sub_square_size square_size); [done|].
  destruct (Z.ltb_spec sub_square_size 2); [done|]. lia.
Qed.

Lemma generate_invalid_sizes_witness :
  generate_square_with_one_valid_sub_square draws_example 4 1 = Raise ValueError /\
  generate_square_with_one_valid_sub_square draws_example 4 1
    = generate_square_with_one_valid_sub_square (Draws (zeros []) 7 7) 4 1.
Proof.
  apply (generate_invalid_sizes draws_example (Draws (zeros []) 7 7) 4 1).
  right. lia.
Defined.

(** X12: for sides with [2 <= k <= n] and any draws the random sources can
    return, the generator of test grids returns a valid [Square] of side
    [n] in which the placement of side [k] at the planted anchor (the
    origin when [k = n], the drawn anchor otherwise) qualifies. *)
Theorem generate_plants_sub_square (rnd : draws) (n k : nat)
    (Hk : 2 <= k <= n) (Hdraws : draws_for rnd n k) :
  exists square,
    generate_square_with_one_valid_sub_square rnd (Z.of_nat n) (Z.of_nat k)
      = Ok square /\
    valid_grid square n /\
    placement n k (generated_anchor rnd n k).1 (generated_anchor rnd n k).2 /\
    qualifies square k (generated_anchor rnd n k).1 (generated_anchor rnd n k).2
      = true.
Proof.
  destruct (generate_value rnd n k Hk Hdraws) as [Hgen Hplace].
  destruct Hdraws as (Hs & Hwf & Hbin & _).
  eexists. split; [exact Hgen|].
  split; [by apply with_border_valid|]. split; [done|].
  by apply with_border_qualifies.
Qed.

Lemma draws_example_in_range : draws_for draws_example 4 2.
Proof.
  unfold draws_for, draws_example. simpl.
  split; [reflexivity|]. split; [reflexivity|].
  split; [|lia]. repeat constructor; lia.
Defined.

Lemma generate_plants_sub_square_witness :
  exists square,
    generate_square_with_one_valid_sub_square draws_example (Z.of_nat 4) (Z.of_nat 2)
      = Ok square /\
    valid_grid square 4 /\
    placement 4 2 (generated_anchor draws_example 4 2).1
                  (generated_anchor draws_example 4 2).2 /\
    qualifies square 2 (generated_anchor draws_example 4 2).1
                       (generated_anchor draws_example 4 2).2 = true.
Proof.
  apply (generate_plants_sub_square draws_example 4 2).
  - lia.
  - exact draws_example_in_range.
Defined.

(** X13: the generator of test grids changes the drawn array on the border
    of the planted sub-square only: in the grid it returns, every cell on
    that border is 1 and every other cell is the drawn one. *)
Theorem generate_cells (rnd : draws) (n k : nat) (square : Square) (i j : nat)
    (Hk : 2 <= k <= n) (Hdraws : draws_for rnd n k)
    (Hgen : generate_square_with_one_valid_sub_square rnd (Z.of_nat n) (Z.of_nat k)
            = Ok square)
    (Hi : i < n) (Hj : j < n) :
  (on_border k (generated_anchor rnd n k).1 (generated_anchor rnd n k).2 i j ->
   item (matrix square) i j = Some 1%Z) /\
  (~ on_border k (generated_anchor rnd n k).1 (generated_anchor rnd n k).2 i j ->
   item (matrix square) i j = item (drawn_matrix rnd) i j).
Proof.
  destruct (generate_value rnd n k Hk Hdraws) as [Hgen' Hplace].
  destruct Hdraws as (Hs & Hwf & _).
  rewrite Hgen' in Hgen. injection Hgen as <-.
  by apply with_border_item.
Qed.

Lemma generate_cells_witness :
  (on_border 2 (generated_anchor draws_example 4 2).1
               (generated_anchor draws_example 4 2).2 1 2 ->
   item (matrix (mkSquare (NDArray [4; 4] [0; 0; 0; 0;
                                           0; 0; 1; 1;
                                           0; 0; 1; 1;
                                           0; 0; 0; 0]%Z))) 1 2 = Some 1%Z) /\
  (~ on_border 2 (generated_anchor draws_example 4 2).1
                 (generated_anchor draws_example 4 2).2 1 2 ->
   item (matrix (mkSquare (NDArray [4; 4] [0; 0; 0; 0;
                                           0; 0; 1; 1;
                                           0; 0; 1; 1;
                                           0; 0; 0; 0]%Z))) 1 2
   = item (drawn_matrix draws_example) 1 2).
Proof.
  apply (generate_cells draws_example 4 2).
  - lia.
  - exact draws_example_in_range.
  - reflexivity.
  - lia.
  - lia.
Defined.

(** X14: the search run on a grid from the generator of test grids
    succeeds, with a side at least the side [k] asked of the generator. *)
Theorem generate_then_find_largest (rnd : draws) (n k : nat) (square : Square)
    (Hk : 2 <= k <= n) (Hdraws : draws_for rnd n k)
    (Hgen : generate_square_with_one_valid_sub_square rnd (Z.of_nat n) (Z.of_nat k)
            = Ok square) :
  exists w size,
    find_largest_sub_square (PySquare square) = Ok (w, size) /\
    (Z.of_nat k <= size)%Z.
Proof.
  destruct (generate_value rnd n k Hk Hdraws) as [Hgen' Hplace].
  destruct Hdraws as (Hs & Hwf & Hbin & _).
  rewrite Hgen' in Hgen. injection Hgen as <-.
  pose proof (with_border_valid _ n k (generated_anchor rnd n k).1
                (generated_anchor rnd n k).2 Hs Hwf Hbin) as [_ Hvalid].
  pose proof (with_border_qualifies _ n k _ _ Hs Hwf Hplace) as Hq.
  destruct (find_largest_spec _ n Hvalid)
    as [(k' & row' & col' & w & Hres & _ & _ & _ & _ & _ & Hlarger & _)
       | [_ Hnone]].
  - exists w, (Z.of_nat k'). split; [done|].
    destruct (decide (k' < k)) as [Hlt|]; [|lia].
    destruct Hplace as (? & ? & ?).
    rewrite (Hlarger k _ _) in Hq by (done || lia). done.
  - destruct Hplace as (? & ? & ?). rewrite Hnone in Hq by (done || lia). done.
Qed.

Lemma generate_then_find_largest_witness :
  exists w size,
    find_largest_sub_square
      (PySquare (mkSquare (NDArray [4; 4] [0; 0; 0; 0;
                                           0; 0; 1; 1;
                                           0; 0; 1; 1;
                                           0; 0; 0; 0]%Z)))
    = Ok (w, size) /\
    (Z.of_nat 2 <= size)%Z.
Proof.
  apply (generate_then_find_largest draws_example 4 2).
  - lia.
  - exact draws_example_in_range.
  - reflexivity.
Defined.

(** ** The returned array is a view of the grid *)

Lemma mem_for_gen_found (P : Mem.view -> Prop) (size : Z)
    (g : generator Mem.view) (s s' : Mem.store) (a : Mem.view) (k : Z) :
  gen_Forall P g ->
  Mem.for_gen g (fun sub_square =>
      Mem.bind (Mem._is_sub_square sub_square) (fun ok : bool =>
        if ok then Mem.ret (Some (sub_square, size)) else Mem.ret None)) s
  = (Ok (Some (a, k)), s') ->
  P a.
Proof.
  revert s. induction g as [b rest IH| |e]; intros s Hg; [|done..].
  destruct Hg as [Hb Hrest]. cbn [Mem.for_gen].
  unfold Mem.bind at 1. unfold Mem.bind at 1.
  destruct (Mem._is_sub_square b s) as [[[|]|e] s1]; [| |done].
  - unfold Mem.ret. by intros [= <- _ _].
  - unfold Mem.ret at 1. by apply IH.
Qed.

Lemma mem_for_list_found {A R : Type} (Q : R -> Prop) (l : list A)
    (body : A -> Mem.state (option R)) (s s' : Mem.store) (r : R) :
  (forall x s1 s2 r', body x s1 = (Ok (Some r'), s2) -> Q r') ->
  Mem.for_list l body s = (Ok (Some r), s') ->
  Q r.
Proof.
  intros Hbody. revert s. induction l as [|x l IH]; intros s; [done|].
  cbn [Mem.for_list]. unfold Mem.bind.
  destruct (body x s) as [[[r'|]|e] s1] eqn:Hx; [| |done].
  - unfold Mem.ret. intros [= <- _]. by eapply Hbody.
  - apply IH.
Qed.

Lemma mem_windows_share_buffer (square : Mem.Square) (sub_square_size : Z) :
  gen_Forall (fun a => Mem.base a = Mem.base (Mem.matrix square) /\
                       Mem.strides a = Mem.strides (Mem.matrix square))
             (Mem._get_rolling_windows square sub_square_size).
Proof.
  unfold Mem._get_rolling_windows.
  destruct (Mem.size square) as [n|e]; [|done].
  destruct (_ || _); [done|].
  apply gen_Forall_for. intros start_row.
  apply gen_Forall_for. intros start_col.
  unfold Mem.getitem_slice_slice.
  destruct (Mem.vshape (Mem.matrix square)) as [|rows [|cols rest]]; [done..|].
  destruct (Mem.strides (Mem.matrix square)) as [|s0 [|s1 srest]]; [done..|].
  destruct (py_slice _ _ rows) as [r h], (py_slice _ _ cols) as [c w].
  by repeat split.
Qed.

(** X15: a successful search returns no copy: the array it returns reads the
    buffer of the grid's own array, with the strides of that array, so it
    shows the grid's cells in place. *)
Theorem find_largest_returns_view (s s' : Mem.store) (square : Mem.Square)
    (a : Mem.view) (size : Z)
    (Hres : Mem.find_largest_sub_square (Mem.PySquare square) s
            = (Ok (a, size), s')) :
  Mem.base a = Mem.base (Mem.matrix square) /\
  Mem.strides a = Mem.strides (Mem.matrix square).
Proof.
  unfold Mem.find_largest_sub_square in Hres.
  unfold Mem.bind at 1, Mem.lift in Hres.
  destruct (Mem.size square) as [m|e]; [|done].
  unfold Mem.bind at 1 in Hres.
  destruct (Mem.for_list _ _ s) as [[[[b k]|]|e] s1] eqn:Hloop; [| |done].
  - unfold Mem.ret in Hres. injection Hres as -> -> ->.
    apply (mem_for_list_found
             (fun r => Mem.base r.1 = Mem.base (Mem.matrix square) /\
                       Mem.strides r.1 = Mem.strides (Mem.matrix square))
             _ _ _ _ (a, size)) in Hloop; [done|].
    intros k' s2 s3 [a' k''] Hfound. simpl.
    by apply (mem_for_gen_found _ _ _ _ _ _ _ (mem_windows_share_buffer square k'))
      in Hfound.
  - by unfold Mem.bind, Mem.read, Mem.raise in Hres.
Qed.

Lemma find_largest_returns_view_witness :
  Mem.base (Mem.View 0 1 [2; 2] [3; 1])
    = Mem.base (Mem.matrix (Mem.mkSquare (grid_view 0))) /\
  Mem.strides (Mem.View 0 1 [2; 2] [3; 1])
    = Mem.strides (Mem.matrix (Mem.mkSquare (grid_view 0))).
Proof.
  apply (find_largest_returns_view store_example store_example
           (Mem.mkSquare (grid_view 0)) (Mem.View 0 1 [2; 2] [3; 1]) 2%Z).
  reflexivity.
Defined.

(** ** The side of a constructed [Square] *)

(** X16: on a [Square] the constructor has returned, the property [size]
    does not raise; it is the number of rows, which is also the number of
    columns, and the array holds that number squared of cells. *)
Theorem size_of_constructed (m : pyobj) (square : Square)
    (Hnew : Square_new m = Ok square)
    (Hwf : wf_ndarray (matrix square)) :
  exists n,
    size square = Ok (Z.of_nat n) /\
    shape (matrix square) = [n; n] /\
    length (data (matrix square)) = n * n.
Proof.
  unfold Square_new in Hnew.
  destruct (_valid_matrix m) as [[]|e] eqn:Hv; [|done]. cbn [bind] in Hnew.
  destruct m as [| z | l | a | s]; try done.
  injection Hnew as <-. apply valid_matrix_inv in Hv as (n & Hs & _).
  exists n. unfold size. simpl. rewrite Hs.
  split; [done|]. split; [done|]. by apply (wf_matrix_length a n n).
Qed.

Lemma size_of_constructed_witness :
  exists n,
    size (mkSquare grid_example) = Ok (Z.of_nat n) /\
    shape (matrix (mkSquare grid_example)) = [n; n] /\
    length (data (matrix (mkSquare grid_example))) = n * n.
Proof.
  apply (size_of_constructed (PyNdarray grid_example) (mkSquare grid_example));
    reflexivity.
Defined.
